(** * Face_Enhancer_Tool: a shallow embedding of the enhancement pipeline
      ([src/inference_face_enhancer.py]) and of the RunPod job handler
      ([src/rp_handler.py]).

    Python code is modelled in a state-and-exception monad: a computation
    takes the program state (files on disk, the frame buffers of the
    process, the video handles, the frames handed to the video writer, the
    list [temp_files] and an event log) and returns either a value or a
    raised exception, together with the new state.  The external
    collaborators (OpenCV, ffmpeg, requests, the enhancer and FaceID
    models, the Python builtins that parse and print numbers) are fields of
    an environment record, so every theorem holds for all of them. *)

From Stdlib Require Import QArith ZArith.
From stdpp Require Import base list gmap strings.

Open Scope string_scope.
Set Warnings "-register-all".

(** ** Python exceptions and results *)

Inductive exn :=
| ValueError
| IOError
| FileNotFoundError
| OSError
| TypeError
| AttributeError
| TimeoutExpired                (** subprocess.TimeoutExpired *)
| RequestsTimeout               (** requests.exceptions.Timeout *)
| RequestException              (** other requests.exceptions.RequestException *)
| FaceEnhancerError
| OverflowError                 (** float() of an int beyond the double range *)
| OtherError.

(** Every modelled exception derives from [Exception]; [BaseException]s
    such as [KeyboardInterrupt] are not part of the model. *)

Inductive res (A : Type) :=
| Ok (a : A)
| Raise (e : exn).
Arguments Ok {A} a.
Arguments Raise {A} e.

(** ** The process state *)

Abbreviation bytes := (list Byte.byte).

(** Events recorded by the program: resource acquisitions, external calls
    and the log lines the claims speak about. *)
Inductive event :=
| EvHead (url : string)               (** requests.head *)
| EvGet (url : string)                (** requests.get *)
| EvTempCreate (p : string)           (** tempfile.NamedTemporaryFile *)
| EvPopen (cmd : list string)         (** subprocess.Popen of the inference *)
| EvFfmpeg (cmd : list string)        (** subprocess.run of ffmpeg *)
| EvFrameError (idx : nat)            (** logger.error in the frame loop *)
| EvRemoved (p : string)              (** logger.info after os.remove *)
| EvRemoveFailed (p : string).        (** logger.warning, removal failed *)

Section State.
Variable Frame : Type.

Record St := mkSt {
  st_fs : gmap string bytes;          (** regular files and their contents *)
  st_mem : nat -> Frame;              (** frame buffers (numpy arrays) *)
  st_next : nat;                      (** next free buffer *)
  st_handles : list bool;             (** cv2.VideoCapture objects: open? *)
  st_written : list Frame;            (** frames given to out.write *)
  st_temps : list string;             (** the local list [temp_files] *)
  st_log : list event
}.

Definition M (A : Type) := St -> res A * St.

Definition ret {A} (a : A) : M A := fun s => (Ok a, s).
Definition throw {A} (e : exn) : M A := fun s => (Raise e, s).
Definition bind {A B} (m : M A) (k : A -> M B) : M B :=
  fun s => match m s with
           | (Ok a, s') => k a s'
           | (Raise e, s') => (Raise e, s')
           end.
(** [try: m  except Exception as e: h e] *)
Definition catch {A} (m : M A) (h : exn -> M A) : M A :=
  fun s => match m s with
           | (Ok a, s') => (Ok a, s')
           | (Raise e, s') => h e s'
           end.

Definition get : M St := fun s => (Ok s, s).
Definition put (s : St) : M unit := fun _ => (Ok tt, s).
Definition modify (f : St -> St) : M unit := fun s => (Ok tt, f s).

Definition set_fs (fs : gmap string bytes) (s : St) : St :=
  mkSt fs (st_mem s) (st_next s) (st_handles s) (st_written s) (st_temps s) (st_log s).
Definition set_mem (m : nat -> Frame) (n : nat) (s : St) : St :=
  mkSt (st_fs s) m n (st_handles s) (st_written s) (st_temps s) (st_log s).
Definition set_handles (hs : list bool) (s : St) : St :=
  mkSt (st_fs s) (st_mem s) (st_next s) hs (st_written s) (st_temps s) (st_log s).
Definition set_written (w : list Frame) (s : St) : St :=
  mkSt (st_fs s) (st_mem s) (st_next s) (st_handles s) w (st_temps s) (st_log s).
Definition set_temps (t : list string) (s : St) : St :=
  mkSt (st_fs s) (st_mem s) (st_next s) (st_handles s) (st_written s) t (st_log s).
Definition set_log (l : list event) (s : St) : St :=
  mkSt (st_fs s) (st_mem s) (st_next s) (st_handles s) (st_written s) (st_temps s) l.

Definition emit (e : event) : M unit := modify (fun s => set_log (st_log s ++ [e]) s).

(** os.path.exists / os.path.isfile on a regular file *)
Definition path_exists (p : string) : M bool :=
  fun s => (Ok (bool_decide (is_Some (st_fs s !! p))), s).

(** os.path.getsize: raises [OSError] on a missing file *)
Definition getsize (p : string) : M Z :=
  fun s => match st_fs s !! p with
           | Some b => (Ok (Z.of_nat (length b)), s)
           | None => (Raise OSError, s)
           end.

(** open(p, 'rb').read() *)
Definition read_file (p : string) : M bytes :=
  fun s => match st_fs s !! p with
           | Some b => (Ok b, s)
           | None => (Raise FileNotFoundError, s)
           end.

Definition write_file (p : string) (b : bytes) : M unit :=
  modify (fun s => set_fs (<[p := b]> (st_fs s)) s).

End State.

Arguments ret {Frame A} a _.
Arguments throw {Frame A} e _.
Arguments bind {Frame A B} m k _.
Arguments catch {Frame A} m h _.
Arguments get {Frame} _.
Arguments put {Frame} s _.
Arguments modify {Frame} f _.
Arguments emit {Frame} e _.
Arguments path_exists {Frame} p _.
Arguments getsize {Frame} p _.
Arguments read_file {Frame} p _.
Arguments write_file {Frame} p b _.

Notation "x <- m ;; k" := (bind m (fun x => k))
  (at level 60, m at next level, right associativity).
Notation "m ;;; k" := (bind m (fun _ => k))
  (at level 60, right associativity).

(** ** Media probe: [get_video_details] *)

(** What cv2.VideoCapture sees in an opened source: the properties read
    with [video.get] and the frames [video.read] returns, in order. *)
Record Capture (Frame : Type) := mkCapture {
  cap_fps : Q;
  cap_width : Q;
  cap_height : Q;
  cap_count : Q;
  cap_frames : list Frame
}.
Arguments mkCapture {Frame}.
Arguments cap_fps {Frame}.
Arguments cap_width {Frame}.
Arguments cap_height {Frame}.
Arguments cap_count {Frame}.
Arguments cap_frames {Frame}.

(** Python's [int] on a float truncates toward zero. *)
Definition py_int_of_float (q : Q) : Z := Z.quot (Qnum q) (Zpos (Qden q)).

Section Probe.
Context {Frame : Type}.
(** [cv2.VideoCapture(path)]: [None] when the source cannot be opened. *)
Variable capture : string -> option (Capture Frame).

(** Creating a VideoCapture object: a new handle, open when the source
    could be opened.  Returns the handle's index. *)
Definition video_capture (path : string) : M Frame (nat * option (Capture Frame)) :=
  fun s => let h := length (st_handles Frame s) in
           let c := capture path in
           (Ok (h, c), set_handles Frame (st_handles Frame s ++ [bool_decide (is_Some c)]) s).

(** [video.release()] *)
Definition release (h : nat) : M Frame unit :=
  modify (fun s => set_handles Frame (<[h := false]> (st_handles Frame s)) s).

Definition get_video_details (video_path : string) : M Frame (Q * Z * Z * Z) :=
  catch
    (hc <- video_capture video_path ;;
     let '(h, c) := hc in
     match c with
     | None => throw IOError
     | Some c =>
         let fps := cap_fps c in
         let width := py_int_of_float (cap_width c) in
         let height := py_int_of_float (cap_height c) in
         let frame_count := py_int_of_float (cap_count c) in
         release h ;;;
         if Qle_bool fps 0 || (width <=? 0)%Z || (height <=? 0)%Z
         then throw ValueError
         else ret (fps, width, height, frame_count)
     end)
    (fun e => (* logger.error(...); raise *) throw e).
End Probe.

(** ** [cleanup_temp_files] (and [cleanup_files] of the handler) *)

Section Cleanup.
Context {Frame : Type}.
(** Whether [os.remove(p)] succeeds on an existing file. *)
Variable remove_ok : string -> bool.

(** [os.remove(p)]: raises [OSError] when the removal fails. *)
Definition os_remove (p : string) : M Frame unit :=
  if remove_ok p
  then modify (fun s => set_fs Frame (delete p (st_fs Frame s)) s)
  else throw OSError.

Definition cleanup_one (file_path : string) : M Frame unit :=
  catch
    (e <- path_exists file_path ;;
     if e then os_remove file_path ;;; emit (EvRemoved file_path)
     else ret tt)
    (fun _ => emit (EvRemoveFailed file_path)).

Fixpoint cleanup_temp_files (file_paths : list string) : M Frame unit :=
  match file_paths with
  | [] => ret tt
  | p :: ps => cleanup_one p ;;; cleanup_temp_files ps
  end.

(** rp_handler.cleanup_files: the same loop, skipping empty paths
    ([if file_path and os.path.exists(file_path)]). *)
Definition cleanup_files_one (file_path : string) : M Frame unit :=
  catch
    (e <- path_exists file_path ;;
     if bool_decide (file_path <> "") && e
     then os_remove file_path ;;; emit (EvRemoved file_path)
     else ret tt)
    (fun _ => emit (EvRemoveFailed file_path)).

Fixpoint cleanup_files (file_paths : list string) : M Frame unit :=
  match file_paths with
  | [] => ret tt
  | p :: ps => cleanup_files_one p ;;; cleanup_files ps
  end.
End Cleanup.

(** ** The enhancement pipeline: [main] of inference_face_enhancer.py *)

(** Command-line arguments (argparse namespace). *)
Record Args := mkArgs {
  a_face : string;
  a_enhancer : string;
  a_enhancer_w : Q;
  a_gpen_type : string;
  a_use_faceid : bool;
  a_outfile : option string
}.

(** Outcome of [subprocess.run(ffmpeg_cmd, ..., timeout=300)]: an exception
    (timeout, missing binary) or an exit code together with what ffmpeg
    left at the output path ([None]: nothing written). *)
Inductive ff_outcome :=
| FfRaise (e : exn)
| FfExit (returncode : Z) (written : option bytes).

(** An enhancer object: its model path and its [upscale] keyword. *)
Definition enhancer_id := (string * option Q)%type.

(** The collaborators of [main].  A capability ([enhance],
    [get_final_image]) is called with the frame index of the iteration
    (it may be stateful), the buffers of the process and the next free
    buffer, and the buffers it is given; it may modify any buffer in place,
    allocate new ones, and returns a buffer or raises. *)
Record PipeEnv (Frame : Type) := mkPipeEnv {
  pe_capture : string -> option (Capture Frame);
  pe_makedirs_ok : string -> bool;
  pe_pid : string;
  pe_basename : string -> string;
  pe_splitext : string -> string * string;
  pe_dirname : string -> string;
  pe_writer_opens : string -> Q -> Z -> Z -> bool;
  pe_encode : Q -> Z -> Z -> list Frame -> bytes;
  pe_enhance : enhancer_id -> nat -> (nat -> Frame) -> nat -> nat ->
               (nat -> Frame) * nat * res nat;
  pe_get_final_image : nat -> (nat -> Frame) -> nat -> nat -> nat -> nat ->
               (nat -> Frame) * nat * res nat;
  pe_ffmpeg : gmap string bytes -> list string -> ff_outcome;
  pe_copy_ok : string -> bool;
  pe_remove_ok : string -> bool
}.
Arguments pe_capture {Frame}.
Arguments pe_makedirs_ok {Frame}.
Arguments pe_pid {Frame}.
Arguments pe_basename {Frame}.
Arguments pe_splitext {Frame}.
Arguments pe_dirname {Frame}.
Arguments pe_writer_opens {Frame}.
Arguments pe_encode {Frame}.
Arguments pe_enhance {Frame}.
Arguments pe_get_final_image {Frame}.
Arguments pe_ffmpeg {Frame}.
Arguments pe_copy_ok {Frame}.
Arguments pe_remove_ok {Frame}.

Section Pipeline.
Context {Frame : Type}.
Variable E : PipeEnv Frame.

Local Abbreviation M := (M Frame).

(** A new numpy array holding [f]. *)
Definition alloc (f : Frame) : M nat :=
  fun s => let l := st_next Frame s in
           (Ok l, set_mem Frame (fun i => if Nat.eqb i l then f else st_mem Frame s i) (S l) s).

Definition load (l : nat) : M Frame := fun s => (Ok (st_mem Frame s l), s).

(** [enhancer.enhance(frame)] *)
Definition call_enhance (enh : enhancer_id) (idx l : nat) : M nat :=
  fun s => let '(m', n', r) := pe_enhance E enh idx (st_mem Frame s) (st_next Frame s) l in
           (r, set_mem Frame m' n' s).

(** [faceid_model.get_final_image(original, enhanced, reference)] *)
Definition call_get_final_image (idx lo le lr : nat) : M nat :=
  fun s => let '(m', n', r) := pe_get_final_image E idx (st_mem Frame s) (st_next Frame s) lo le lr in
           (r, set_mem Frame m' n' s).

(** [out.write(x)]: the writer takes the buffer's current contents. *)
Definition out_write (l : nat) : M unit :=
  g <- load l ;;
  modify (fun s => set_written Frame (st_written Frame s ++ [g]) s).

(** One iteration of the frame loop, after a successful
    [ret, frame = video_stream.read()] returned [f]. *)
Definition frame_step (enhancer : enhancer_id) (faceid_model : bool)
    (frame_idx : nat) (f : Frame) (processed_frames : nat) : M nat :=
  frame <- alloc f ;;
  r <- catch
         (g <- load frame ;;
          original_frame <- alloc g ;;
          enhanced_frame <- call_enhance enhancer frame_idx frame ;;
          enhanced_frame' <-
            (if faceid_model
             then call_get_final_image frame_idx original_frame enhanced_frame original_frame
             else ret enhanced_frame) ;;
          ret (enhanced_frame', S processed_frames))
         (fun _ => emit (EvFrameError frame_idx) ;;;
                   ret (frame, processed_frames)) ;;
  out_write (fst r) ;;;
  ret (snd r).

(** [for frame_idx in range(frame_count)]: [n] iterations are left, the
    stream still holds [stream]. *)
Fixpoint frame_loop (enhancer : enhancer_id) (faceid_model : bool)
    (n frame_idx : nat) (stream : list Frame) (processed_frames : nat) : M nat :=
  match n with
  | O => ret processed_frames
  | S n' =>
      match stream with
      | [] => (* logger.warning(...); break *) ret processed_frames
      | f :: rest =>
          p <- frame_step enhancer faceid_model frame_idx f processed_frames ;;
          frame_loop enhancer faceid_model n' (S frame_idx) rest p
      end
  end.

(** [os.makedirs(d, exist_ok=True)] *)
Definition makedirs (d : string) : M unit :=
  if pe_makedirs_ok E d then ret tt else throw OSError.

(** [temp_files.append(p)] *)
Definition append_temp (p : string) : M unit :=
  modify (fun s => set_temps Frame (st_temps Frame s ++ [p]) s).

(** [cv2.VideoWriter(path, fourcc, fps, (width, height))] and the
    [isOpened] check; an opened writer creates its file. *)
Definition open_writer (path : string) (fps : Q) (width height : Z) : M unit :=
  if pe_writer_opens E path fps width height
  then write_file path (pe_encode E fps width height []) ;;;
       modify (set_written Frame [])
  else throw IOError.

(** [out.release()]: the file now holds every frame written. *)
Definition writer_release (path : string) (fps : Q) (width height : Z) : M unit :=
  s <- get ;;
  write_file path (pe_encode E fps width height (st_written Frame s)).

(** [subprocess.run(ffmpeg_cmd, ..., timeout=300)]; returns the exit code. *)
Definition run_ffmpeg (cmd : list string) (outfile : string) : M Z :=
  emit (EvFfmpeg cmd) ;;;
  s <- get ;;
  match pe_ffmpeg E (st_fs Frame s) cmd with
  | FfRaise e => throw e
  | FfExit rc written =>
      match written with
      | Some b => write_file outfile b
      | None => ret tt
      end ;;;
      ret rc
  end.

(** [shutil.copy2(src, dst)]: [shutil.SameFileError] (an [OSError]) when
    [src] exists and is [dst]. *)
Definition copy2 (src dst : string) : M unit :=
  b <- read_file src ;;
  if bool_decide (src = dst) then throw OSError else
  if pe_copy_ok E dst then write_file dst b else throw OSError.

Definition gfpgan_model_path := "/app/enhancers/GFPGAN/GFPGANv1.4.onnx".
Definition faceid_model_path := "/app/faceID/arcface_w600k_r50.onnx".

(** The [if args.enhancer == ...] chain building the enhancer. *)
Definition make_enhancer (args : Args) : M enhancer_id :=
  let e := a_enhancer args in
  if bool_decide (e = "GFPGAN") then
    ex <- path_exists gfpgan_model_path ;;
    if ex then ret (gfpgan_model_path, Some (a_enhancer_w args))
    else throw FileNotFoundError
  else if bool_decide (e = "Codeformer") then
    ret ("enhancers/Codeformer/codeformer.onnx", Some (a_enhancer_w args))
  else if bool_decide (e = "GPEN") then
    ret ("enhancers/GPEN/GPEN-BFR-" ++ a_gpen_type args ++ ".onnx", None)
  else if bool_decide (e = "RealESRGAN") then
    ret ("enhancers/RealEsrgan/RealESRGAN_x2plus.onnx", None)
  else if bool_decide (e = "Restoreformer") then
    ret ("enhancers/restoreformer/restoreformer.onnx", None)
  else if bool_decide (e = "Restoreformer32") then
    ret ("enhancers/restoreformer/restoreformer32.onnx", None)
  else if bool_decide (e = "Restoreformer16") then
    ret ("enhancers/restoreformer/restoreformer16.onnx", None)
  else throw ValueError.

Definition ffmpeg_cmd (temp_video_file face outfile : string) : list string :=
  ["ffmpeg"; "-y"; "-i"; temp_video_file; "-i"; face; "-c:v"; "libx264";
   "-c:a"; "aac"; "-strict"; "experimental"; "-shortest"; outfile].

(** The end of [main]'s [try] block: check the silent video, merge the
    audio with ffmpeg, fall back to a plain copy, check the output. *)
Definition remux_stage (face outfile temp_video_file : string) : M bool :=
  ex <- path_exists temp_video_file ;;
  if negb ex then throw FileNotFoundError else
  makedirs (pe_dirname E outfile) ;;;
  rc <- run_ffmpeg (ffmpeg_cmd temp_video_file face outfile) outfile ;;
  (if negb (rc =? 0)%Z then copy2 temp_video_file outfile else ret tt) ;;;
  ex2 <- path_exists outfile ;;
  if negb ex2 then throw FileNotFoundError else ret true.

(** The body of the [try] block of [main], from the line after
    [temp_video_file] is known: open the streams, run the frame loop,
    release, remux. *)
Definition enhance_and_remux (args : Args) (outfile temp_video_file : string)
    (fps : Q) (width height frame_count : Z)
    (enhancer : enhancer_id) (faceid_model : bool) : M bool :=
  hc <- video_capture (pe_capture E) (a_face args) ;;
  let '(video_stream, c) := hc in
  match c with
  | None => throw IOError
  | Some c =>
      open_writer temp_video_file fps width height ;;;
      processed_frames <- frame_loop enhancer faceid_model (Z.to_nat frame_count) 0
                                     (cap_frames c) 0 ;;
      release video_stream ;;;
      writer_release temp_video_file fps width height ;;;
      remux_stage (a_face args) outfile temp_video_file
  end.

Definition main_body (args : Args) : M bool :=
  isf <- path_exists (a_face args) ;;
  if negb isf then throw ValueError else
  outfile <-
    match a_outfile args with
    | Some o => ret o
    | None =>
        let '(name, ext) := pe_splitext E (pe_basename E (a_face args)) in
        let output_dir := "/app/outputs" in
        makedirs output_dir ;;;
        ret (output_dir ++ "/" ++ name ++ "_enhanced_" ++ a_enhancer args ++ ext)
    end ;;
  let temp_dir := "/app/temp" in
  makedirs temp_dir ;;;
  let temp_video_file := temp_dir ++ "/enhanced_video_no_audio_" ++ pe_pid E ++ ".avi" in
  append_temp temp_video_file ;;;
  d <- get_video_details (pe_capture E) (a_face args) ;;
  let '(fps, width, height, frame_count) := d in
  enhancer <- make_enhancer args ;;
  faceid_model <-
    (if a_use_faceid args then
       ex <- path_exists faceid_model_path ;;
       if ex then ret true else throw FileNotFoundError
     else ret false) ;;
  enhance_and_remux args outfile temp_video_file fps width height frame_count
                    enhancer faceid_model.

Definition main (args : Args) : M bool :=
  modify (set_temps Frame []) ;;;
  r <- catch (main_body args) (fun _ => (* logger.error(...) *) ret false) ;;
  s <- get ;;
  cleanup_temp_files (pe_remove_ok E) (st_temps Frame s) ;;;
  ret r.

End Pipeline.

(** ** The RunPod job handler of rp_handler.py *)

(** Python floats: a finite value, or one of the non-finite ones. *)
Inductive pyfloat :=
| Fin (q : Q)
| NaN
| PosInf
| NegInf.

(** JSON-like Python values of a job. *)
Inductive pyval :=
| PNone
| PBool (b : bool)
| PInt (z : Z)
| PFloat (f : pyfloat)
| PStr (s : string)
| PList (l : list pyval)
| PDict (d : list (string * pyval)).

Definition pydict := list (string * pyval).

(** [d.get(k, default)] *)
Definition dict_get (d : pydict) (k : string) (default : pyval) : pyval :=
  match list_find (fun kv => kv.1 = k) d with
  | Some (_, (_, v)) => v
  | None => default
  end.

(** Python truthiness ([if x:], [not x]). *)
Definition truthy (v : pyval) : bool :=
  match v with
  | PNone => false
  | PBool b => b
  | PInt z => negb (z =? 0)%Z
  | PFloat (Fin q) => negb (Qeq_bool q 0)
  | PFloat _ => true
  | PStr s => bool_decide (s <> "")
  | PList l => bool_decide (l <> [])
  | PDict d => bool_decide (d <> [])
  end.

(** [0 <= w <= 1] on a Python float (false on NaN). *)
Definition in_unit (w : pyfloat) : bool :=
  match w with
  | Fin q => Qle_bool 0 q && Qle_bool q 1
  | _ => false
  end.

(** Python builtins the handler relies on, left abstract. *)
Record Builtins := mkBuiltins {
  b_str : pyval -> string;                 (** str(v), f"{v}" *)
  b_exc_str : exn -> string;               (** str(e) of an exception *)
  b_float_of_str : string -> option pyfloat; (** float(s); None: ValueError *)
  b_int_of_str : string -> option Z;       (** int(s); None: ValueError *)
  b_b64encode : bytes -> string            (** base64.b64encode(b).decode('utf-8') *)
}.

(** The smallest magnitude of an int that [float()] rounds beyond the
    largest double [2^1024 - 2^971] (ties round to even, here upward). *)
Definition FLOAT_INT_LIMIT : Z := (2 ^ 1024 - 2 ^ 970)%Z.

(** [float(v)].  An int within the double range is kept exact: rounding
    it to a double does not move it across 0 or 1, the only comparisons
    the handler makes. *)
Definition py_float (B : Builtins) {Frame} (v : pyval) : M Frame pyfloat :=
  match v with
  | PBool b => ret (Fin (if b then 1 else 0))
  | PInt z => if (FLOAT_INT_LIMIT <=? Z.abs z)%Z then throw OverflowError
              else ret (Fin (inject_Z z))
  | PFloat f => ret f
  | PStr s => match b_float_of_str B s with
              | Some f => ret f
              | None => throw ValueError
              end
  | _ => throw TypeError
  end.

Inductive head_outcome :=
| HeadRaise (e : exn)
| HeadResp (status_code : Z) (headers : list (string * string)).

(** [requests.get(url, stream=True, timeout=120)]: a raised exception, or
    the status, headers, the chunks [iter_content] yields and the
    exception it raises after them, if any. *)
Inductive get_outcome :=
| GetRaise (e : exn)
| GetResp (status_code : Z) (headers : list (string * string))
          (chunks : list bytes) (stream_error : option exn).

(** [subprocess.Popen(cmd).communicate(timeout=1800)]: Popen raises, the
    timeout expires (the process is then killed, leaving the files it had
    written so far: its output path, its silent intermediate video, ...),
    or the process exits with a code, its stderr and what it left at the
    output path. *)
Inductive popen_outcome :=
| PopenRaise (e : exn)
| PopenTimeout (files_left : list (string * bytes))
| PopenExit (returncode : Z) (stderr : string) (written : option bytes).

(** The collaborators of the handler.  Header names are the lower-case
    keys of requests' case-insensitive header dict. *)
Record JobEnv := mkJobEnv {
  je_head : string -> head_outcome;
  je_get : string -> get_outcome;
  je_tempfile : nat -> option string;  (** n-th NamedTemporaryFile; None: raises *)
  je_dirname : string -> string;
  je_makedirs_ok : string -> bool;
  je_popen : list string -> popen_outcome;
  je_remove_ok : string -> bool
}.

Definition MAX_FILE_SIZE : Z := 500 * 1024 * 1024.
Definition TIMEOUT_SECONDS : Z := 1800.
Definition INLINE_LIMIT : Z := 50 * 1024 * 1024.

Definition header_get (h : list (string * string)) (k : string) : option string :=
  match list_find (fun kv => kv.1 = k) h with
  | Some (_, (_, v)) => Some v
  | None => None
  end.

Definition valid_enhancers : list string :=
  ["GFPGAN"; "Codeformer"; "GPEN"; "RealESRGAN"; "Restoreformer";
   "Restoreformer32"; "Restoreformer16"].

(** [str(valid_enhancers)] *)
Definition str_of_str_list (l : list string) : string :=
  "[" ++ String.concat ", " (map (fun s => "'" ++ s ++ "'") l) ++ "]".

Section Handler.
Context {Frame : Type}.
Variable B : Builtins.
Variable J : JobEnv.
Local Abbreviation M := (M Frame).

(** requests converts a non-string URL with [str()]. *)
Definition url_of (v : pyval) : string :=
  match v with PStr s => s | _ => b_str B v end.

Definition validate_video_url (url : string) : M (bool * string) :=
  catch
    (emit (EvHead url) ;;;
     match je_head J url with
     | HeadRaise e => throw e
     | HeadResp status_code headers =>
         if negb (status_code =? 200)%Z then
           ret (false, "URL không thể truy cập: HTTP " ++ b_str B (PInt status_code))
         else
           let content_length := header_get headers "content-length" in
           size_check <-
             (match content_length with
              | Some cl =>
                  if bool_decide (cl <> "") then
                    match b_int_of_str B cl with
                    | None => throw ValueError
                    | Some file_size =>
                        if (file_size >? MAX_FILE_SIZE)%Z
                        then ret (Some ("File quá lớn: " ++ b_str B (PInt file_size)
                                        ++ " bytes (max: " ++ b_str B (PInt MAX_FILE_SIZE) ++ ")"))
                        else ret None
                    end
                  else ret None
              | None => ret None
              end) ;;
           match size_check with
           | Some msg => ret (false, msg)
           | None =>
               (* the content-type check only logs a warning *)
               ret (true, "URL hợp lệ")
           end
     end)
    (fun e => match e with
              | RequestsTimeout => ret (false, "Timeout khi kiểm tra URL")
              | RequestException => ret (false, "Lỗi khi kiểm tra URL: " ++ b_exc_str B e)
              | _ => ret (false, "Lỗi không xác định: " ++ b_exc_str B e)
              end).

(** [f.write(chunk)] for every non-empty chunk, appending to [p]. *)
Fixpoint write_chunks (p : string) (chunks : list bytes) : M unit :=
  match chunks with
  | [] => ret tt
  | c :: cs =>
      (if bool_decide (c <> [])
       then s <- get ;;
            let old := default [] (st_fs Frame s !! p) in
            write_file p (old ++ c)%list
       else ret tt) ;;;
      write_chunks p cs
  end.

(** The output file is opened for writing; in the handler it is the
    temporary file created just before, and a failing [open] is not
    modelled. *)
Definition download_video (url output_path : string) : M bool :=
  catch
    (emit (EvGet url) ;;;
     match je_get J url with
     | GetRaise e => throw e
     | GetResp status_code headers chunks stream_error =>
         (* response.raise_for_status(): 4xx and 5xx only *)
         if (400 <=? status_code)%Z && (status_code <? 600)%Z then throw RequestException else
         (* total_size = int(response.headers.get('content-length', 0)) *)
         (match header_get headers "content-length" with
          | None => ret 0%Z
          | Some cl => match b_int_of_str B cl with
                       | Some z => ret z
                       | None => throw ValueError
                       end
          end) ;;;
         write_file output_path [] ;;;
         write_chunks output_path chunks ;;;
         (match stream_error with Some e => throw e | None => ret tt end) ;;;
         sz <- getsize output_path ;;
         if (sz =? 0)%Z then throw FaceEnhancerError else ret true
     end)
    (fun _ => (* logger.error(...) *) ret false).

Definition inference_cmd (input_path output_path enhancer : string)
    (use_faceid : pyval) (enhancer_w : pyfloat) : list string :=
  ["python"; "/app/inference_face_enhancer.py"; "--face"; input_path;
   "--enhancer"; enhancer; "--enhancer_w"; b_str B (PFloat enhancer_w);
   "--outfile"; output_path] ++ (if truthy use_faceid then ["--use_faceid"] else []).

(** The files a killed subprocess had written. *)
Fixpoint write_files (files : list (string * bytes)) : M unit :=
  match files with
  | [] => ret tt
  | (p, b) :: rest => write_file p b ;;; write_files rest
  end.

Definition run_face_enhancement (input_path output_path enhancer : string)
    (use_faceid : pyval) (enhancer_w : pyfloat) : M (bool * string) :=
  catch
    (ex <- path_exists input_path ;;
     if negb ex then throw FaceEnhancerError else
     (if je_makedirs_ok J (je_dirname J output_path) then ret tt else throw OSError) ;;;
     let cmd := inference_cmd input_path output_path enhancer use_faceid enhancer_w in
     emit (EvPopen cmd) ;;;
     match je_popen J cmd with
     | PopenRaise e => throw e
     | PopenTimeout files_left =>
         (* process.kill(); process.wait() *)
         write_files files_left ;;;
         ret (false, "Timeout sau " ++ b_str B (PInt TIMEOUT_SECONDS) ++ "s")
     | PopenExit returncode stderr written =>
         (match written with Some b => write_file output_path b | None => ret tt end) ;;;
         if (returncode =? 0)%Z then
           ex' <- path_exists output_path ;;
           if negb ex' then throw FaceEnhancerError else
           output_size <- getsize output_path ;;
           if (output_size =? 0)%Z then throw FaceEnhancerError
           else ret (true, "Thành công")
         else
           ret (false, "Lỗi inference (exit code " ++ b_str B (PInt returncode) ++ "): " ++ stderr)
     end)
    (fun e => ret (false, "Lỗi trong quá trình cải thiện: " ++ b_exc_str B e)).

(** [tempfile.NamedTemporaryFile(suffix='.mp4', delete=False)]: creates an
    empty file; [temp_files.append(name)]. *)
Definition named_temp_file (n : nat) : M string :=
  match je_tempfile J n with
  | None => throw OSError
  | Some p =>
      write_file p [] ;;; emit (EvTempCreate p) ;;;
      modify (fun s => set_temps Frame (st_temps Frame s ++ [p]) s) ;;;
      ret p
  end.

Definition err (msg : string) : pydict := [("error", PStr msg)].

(** Step 3 of the handler: package the output file. *)
Definition package_output (output_path enhancer : string) (use_faceid : pyval)
    (enhancer_w : pyfloat) : M pydict :=
  catch
    (output_size <- getsize output_path ;;
     if (output_size <=? INLINE_LIMIT)%Z then
       data <- read_file output_path ;;
       let video_data := b_b64encode B data in
       ret [("status", PStr "success");
            ("message", PStr "Cải thiện khuôn mặt thành công");
            ("output", PDict [("video_base64", PStr video_data);
                              ("file_size", PInt output_size);
                              ("enhancer_used", PStr enhancer);
                              ("faceid_used", use_faceid);
                              ("enhancer_weight", PFloat enhancer_w)])]
     else
       ret [("error", PStr "File kết quả quá lớn. Cần implement cloud storage upload.");
            ("file_size", PInt output_size)])
    (fun e => ret (err ("Lỗi khi xử lý file kết quả: " ++ b_exc_str B e))).

(** The body of the handler's [try] block. *)
Definition handler_body (job : pydict) : M pydict :=
  match dict_get job "input" (PDict []) with
  | PDict input_data =>
      let video_url := dict_get input_data "video_url" PNone in
      if negb (truthy video_url) then ret (err "Thiếu tham số video_url") else
      let enhancer := dict_get input_data "enhancer" (PStr "GFPGAN") in
      let use_faceid := dict_get input_data "use_faceid" (PBool true) in
      enhancer_w <- py_float B (dict_get input_data "enhancer_w" (PFloat (Fin (1#2)))) ;;
      match enhancer with
      | PStr e_name =>
          if bool_decide (e_name ∈ valid_enhancers) then
            if negb (in_unit enhancer_w) then ret (err "enhancer_w phải trong khoảng 0-1") else
            uv <- validate_video_url (url_of video_url) ;;
            let '(url_valid, url_error) := uv in
            if negb url_valid then ret (err ("URL không hợp lệ: " ++ url_error)) else
            input_path <- named_temp_file 0 ;;
            output_path <- named_temp_file 1 ;;
            ok <- download_video (url_of video_url) input_path ;;
            if negb ok then ret (err "Không thể tải video") else
            sm <- run_face_enhancement input_path output_path e_name use_faceid enhancer_w ;;
            let '(success, message) := sm in
            if negb success then ret (err ("Cải thiện khuôn mặt thất bại: " ++ message)) else
            package_output output_path e_name use_faceid enhancer_w
          else ret (err ("Enhancer không hợp lệ: " ++ b_str B enhancer ++ ". Chọn từ: "
                         ++ str_of_str_list valid_enhancers))
      | _ => ret (err ("Enhancer không hợp lệ: " ++ b_str B enhancer ++ ". Chọn từ: "
                       ++ str_of_str_list valid_enhancers))
      end
  | _ => (* input_data.get on a non-dict *) throw AttributeError
  end.

(** [handler(job)]: [job.get('id', 'unknown')] is evaluated before the
    [try]; on a dict it cannot raise. *)
Definition handler (job : pydict) : M pydict :=
  let job_id := dict_get job "id" (PStr "unknown") in
  modify (set_temps Frame []) ;;;
  r <- catch (handler_body job)
             (fun e => ret (err ("Lỗi server: " ++ b_exc_str B e))) ;;
  s <- get ;;
  cleanup_files (je_remove_ok J) (st_temps Frame s) ;;;
  ret r.

End Handler.

(** * Proofs *)

(** ** Monad reasoning *)

Section MonadFacts.
Context {Frame : Type}.
Local Abbreviation M := (M Frame).

(** [post m P]: whenever [m] returns normally, its value satisfies [P]. *)
Definition post {A} (m : M A) (P : A -> Prop) : Prop :=
  forall s, match fst (m s) with Ok a => P a | Raise _ => True end.

(** [m] does not raise. *)
Definition no_raise {A} (m : M A) : Prop :=
  forall s, exists a, fst (m s) = Ok a.

(** [m] leaves the state component selected by [f] unchanged. *)
Definition keeps {A B} (f : St Frame -> B) (m : M A) : Prop :=
  forall s, f (snd (m s)) = f s.

Lemma post_ret {A} (a : A) (P : A -> Prop) : P a -> post (ret a) P.
Proof. intros H s. exact H. Qed.

Lemma post_throw {A} e (P : A -> Prop) : post (throw e) P.
Proof. intros s. exact I. Qed.

Lemma post_bind {A C} (m : M A) (k : A -> M C) P :
  (forall a, post (k a) P) -> post (bind m k) P.
Proof.
  intros Hk s. unfold bind. destruct (m s) as [[a|e] s']; [apply Hk|exact I].
Qed.

Lemma post_catch {A} (m : M A) h P :
  post m P -> (forall e, post (h e) P) -> post (catch m h) P.
Proof.
  intros Hm Hh s. unfold catch. specialize (Hm s).
  destruct (m s) as [[a|e] s']; [exact Hm|apply Hh].
Qed.

Lemma post_modify f (P : unit -> Prop) : P tt -> post (modify f) P.
Proof. intros H s. exact H. Qed.

Lemma keeps_ret {A B} (f : St Frame -> B) (a : A) : keeps f (ret a).
Proof. intros s. reflexivity. Qed.

Lemma keeps_throw {A B} (f : St Frame -> B) e : keeps f (@throw Frame A e).
Proof. intros s. reflexivity. Qed.

Lemma keeps_bind {A C B} (f : St Frame -> B) (m : M A) (k : A -> M C) :
  keeps f m -> (forall a, keeps f (k a)) -> keeps f (bind m k).
Proof.
  intros Hm Hk s. unfold bind. specialize (Hm s).
  destruct (m s) as [[a|e] s'] eqn:E; simpl in *; [rewrite Hk|]; exact Hm.
Qed.

Lemma keeps_catch {A B} (f : St Frame -> B) (m : M A) h :
  keeps f m -> (forall e, keeps f (h e)) -> keeps f (catch m h).
Proof.
  intros Hm Hh s. unfold catch. specialize (Hm s).
  destruct (m s) as [[a|e] s'] eqn:E; simpl in *; [|rewrite Hh]; exact Hm.
Qed.

Lemma keeps_get {B} (f : St Frame -> B) : keeps f get.
Proof. intros s. reflexivity. Qed.

Lemma catch_total {A} (m : M A) h :
  (forall e, no_raise (h e)) -> no_raise (catch m h).
Proof.
  intros Hh s. unfold catch. destruct (m s) as [[a|e] s']; [eauto|apply Hh].
Qed.

End MonadFacts.

Create HintDb keeps_db.
#[export] Hint Resolve keeps_ret keeps_throw keeps_get : keeps_db.

(** Walk through a computation whose value or frame property is wanted,
    splitting on every [match] and [if]. *)
Ltac post_walk :=
  repeat match goal with
  | |- post (bind _ _) _ => apply post_bind; intro
  | |- post (catch _ _) _ => apply post_catch; [|intro]
  | |- post (ret _) _ => apply post_ret
  | |- post (throw _) _ => apply post_throw
  | |- post (match ?x with _ => _ end) _ => destruct x
  | |- keeps _ (bind _ _) => apply keeps_bind; [|intro]
  | |- keeps _ (catch _ _) => apply keeps_catch; [|intro]
  | |- keeps _ (match ?x with _ => _ end) => destruct x
  | |- keeps _ _ => solve [auto with keeps_db]
  end.

(** ** Media probe *)

Definition probe_invalid {Frame} (c : Capture Frame) : bool :=
  Qle_bool (cap_fps c) 0 || (py_int_of_float (cap_width c) <=? 0)%Z
  || (py_int_of_float (cap_height c) <=? 0)%Z.

(** C9: on every outcome of [get_video_details] (the source cannot be
    opened, its parameters are invalid, or it succeeds), the one
    VideoCapture it creates holds no open stream when it returns or
    raises: it is released whenever it was opened. *)
Theorem get_video_details_releases {Frame} (capture : string -> option (Capture Frame))
    (video_path : string) (s : St Frame) :
  st_handles Frame (snd (get_video_details capture video_path s))
    = (st_handles Frame s ++ [false])%list /\
  fst (get_video_details capture video_path s) =
    match capture video_path with
    | None => Raise IOError
    | Some c => if probe_invalid c then Raise ValueError
                else Ok (cap_fps c, py_int_of_float (cap_width c),
                         py_int_of_float (cap_height c), py_int_of_float (cap_count c))
    end.
Proof.
  unfold get_video_details, catch, bind, video_capture, release, modify, ret, throw, probe_invalid.
  destruct (capture video_path) as [c|]; cbn [fst snd st_handles set_handles].
  - rewrite bool_decide_true by eauto.
    pose proof (insert_app_r (st_handles Frame s) [true] 0 false) as Hi.
    rewrite Nat.add_0_r in Hi. cbn in Hi.
    destruct (Qle_bool _ _ || _ || _); cbn; rewrite Hi; auto.
  - rewrite bool_decide_false by (intros [? H]; discriminate). auto.
Qed.

(** ** Packaging of the result *)

Definition success_payload (B : Builtins) (data : bytes) (enhancer : string)
    (use_faceid : pyval) (w : pyfloat) : pydict :=
  [("status", PStr "success");
   ("message", PStr "Cải thiện khuôn mặt thành công");
   ("output", PDict [("video_base64", PStr (b_b64encode B data));
                     ("file_size", PInt (Z.of_nat (length data)));
                     ("enhancer_used", PStr enhancer);
                     ("faceid_used", use_faceid);
                     ("enhancer_weight", PFloat w)])].

Definition too_large_msg : string :=
  "File kết quả quá lớn. Cần implement cloud storage upload.".

(** C7: an output of at most [INLINE_LIMIT] = 50 MiB bytes (inclusive) is
    returned inline, base64-encoded in full; a larger one, by even one
    byte, gives the explicit "result file too large" error with its size,
    and nothing is truncated. *)
Theorem package_output_threshold {Frame} (B : Builtins) (output_path enhancer : string)
    (use_faceid : pyval) (w : pyfloat) (s : St Frame) (data : bytes) :
  st_fs Frame s !! output_path = Some data ->
  package_output B output_path enhancer use_faceid w s =
  (Ok (if (Z.of_nat (length data) <=? INLINE_LIMIT)%Z
       then success_payload B data enhancer use_faceid w
       else [("error", PStr too_large_msg); ("file_size", PInt (Z.of_nat (length data)))]),
   s).
Proof.
  intros Hd. unfold package_output, catch, bind, getsize, read_file, ret.
  rewrite Hd. destruct (_ <=? _)%Z; cbn; [rewrite Hd|]; reflexivity.
Qed.

Lemma package_output_threshold_witness :
  package_output (Frame := unit) (mkBuiltins (fun _ => "") (fun _ => "") (fun _ => None)
                    (fun _ => None) (fun _ => "AAE="))
    "/tmp/o.mp4" "GFPGAN" (PBool true) (Fin (1#2))
    (mkSt unit (<["/tmp/o.mp4" := [Byte.x00; Byte.x01]]> ∅) (fun _ => tt) 0 [] [] [] [])
  = (Ok (success_payload (mkBuiltins (fun _ => "") (fun _ => "") (fun _ => None)
                    (fun _ => None) (fun _ => "AAE=")) [Byte.x00; Byte.x01] "GFPGAN"
           (PBool true) (Fin (1#2))),
     mkSt unit (<["/tmp/o.mp4" := [Byte.x00; Byte.x01]]> ∅) (fun _ => tt) 0 [] [] [] []).
Proof.
  rewrite (package_output_threshold _ _ _ _ _ _ [Byte.x00; Byte.x01]) by reflexivity.
  reflexivity.
Defined.

(** ** Acquisition of the source video *)

Lemma write_chunks_appends {Frame} (p : string) (cs : list bytes) (s : St Frame) (b : bytes) :
  st_fs Frame s !! p = Some b ->
  (write_chunks p cs s) = (Ok tt, set_fs Frame (<[p := (b ++ concat cs)%list]> (st_fs Frame s)) s).
Proof.
  revert s b. induction cs as [|c cs IH]; intros s b Hb; cbn [write_chunks].
  - rewrite app_nil_r, insert_id by exact Hb. destruct s; reflexivity.
  - unfold bind at 1. destruct (bool_decide (c <> [])) eqn:Hc.
    + cbn. rewrite Hb. cbn.
      rewrite (IH _ (b ++ c)%list) by apply lookup_insert_eq.
      cbn. rewrite insert_insert_eq, app_assoc. reflexivity.
    + apply bool_decide_eq_false in Hc. apply dec_stable in Hc. subst c.
      cbn [ret]. rewrite (IH s b Hb). reflexivity.
Qed.


(** A concrete setting for the witnesses: empty disk, no handles. *)
Definition st_empty : St unit := mkSt unit ∅ (fun _ => tt) 0 [] [] [] [].

Definition builtins_ex : Builtins :=
  mkBuiltins (fun _ => "v") (fun _ => "e")
    (fun s => if bool_decide (s = "1.5") then Some (Fin (3#2)) else None)
    (fun s => if bool_decide (s = "1000") then Some 1000%Z else None)
    (fun _ => "AQ==").

Definition jobenv_ex : JobEnv := {|
  je_head := fun _ => HeadResp 200 [("content-type", "video/mp4")];
  je_get := fun _ => GetResp 200 [("content-length", "1000")] [[Byte.x01]; []; [Byte.x02]] None;
  je_tempfile := fun n => Some (if Nat.eqb n 0 then "/tmp/in.mp4" else "/tmp/out.mp4");
  je_dirname := fun _ => "/tmp";
  je_makedirs_ok := fun _ => true;
  je_popen := fun _ => PopenExit 0 "" (Some [Byte.x05; Byte.x06]);
  je_remove_ok := fun _ => true |}.


(** ** The job handler: validation, totality, one result variant *)

(** [float(v)] as a partial function: [None] where it raises. *)
Definition float_of (B : Builtins) (v : pyval) : option pyfloat :=
  match v with
  | PBool b => Some (Fin (if b then 1 else 0))
  | PInt z => if (FLOAT_INT_LIMIT <=? Z.abs z)%Z then None else Some (Fin (inject_Z z))
  | PFloat f => Some f
  | PStr s => b_float_of_str B s
  | _ => None
  end.

Lemma py_float_float_of {Frame} (B : Builtins) (v : pyval) (s : St Frame) :
  py_float B v s = (match float_of B v with Some f => Ok f | None =>
                      Raise (match v with PStr _ => ValueError | PInt _ => OverflowError
                                        | _ => TypeError end) end, s).
Proof.
  destruct v; cbn; try reflexivity.
  - destruct (FLOAT_INT_LIMIT <=? Z.abs z)%Z; reflexivity.
  - destruct (b_float_of_str B s0); reflexivity.
Qed.

Lemma cleanup_files_nil {Frame} (remove_ok : string -> bool) (s : St Frame) :
  cleanup_files remove_ok [] s = (Ok tt, s).
Proof. reflexivity. Qed.

Definition enhancer_error_msg (B : Builtins) (enhancer : pyval) : string :=
  "Enhancer không hợp lệ: " ++ b_str B enhancer ++ ". Chọn từ: "
  ++ str_of_str_list valid_enhancers.

(** C6: a job whose input misses [video_url], names an enhancer outside
    the fixed list, or gives an [enhancer_w] outside [0, 1] (e.g. 1.5) is
    answered with an error before anything is acquired: the disk, the
    event log (no HEAD or GET request, no temporary file, no inference
    process) and the video handles are those of the call.  When the
    enhancer is what is rejected, the message lists the valid enhancers. *)
Theorem validation_before_resources {Frame} (B : Builtins) (J : JobEnv)
    (job input_data : pydict) (s : St Frame) :
  dict_get job "input" (PDict []) = PDict input_data ->
  let video_url := dict_get input_data "video_url" PNone in
  let enhancer := dict_get input_data "enhancer" (PStr "GFPGAN") in
  let w := float_of B (dict_get input_data "enhancer_w" (PFloat (Fin (1#2)))) in
  truthy video_url = false
  \/ (forall e, enhancer = PStr e -> e ∉ valid_enhancers)
  \/ (exists f, w = Some f /\ in_unit f = false) ->
  exists msg,
    handler B J job s = (Ok (err msg), set_temps Frame [] s) /\
    (truthy video_url = true -> is_Some w ->
     (forall e, enhancer = PStr e -> e ∉ valid_enhancers) ->
     msg = enhancer_error_msg B enhancer).
Proof.
  intros Hin video_url enhancer w Hfail.
  unfold handler, handler_body. rewrite Hin. fold video_url enhancer.
  unfold bind, catch, modify, get, ret, throw. cbv beta iota.
  destruct (truthy video_url) eqn:Hurl; cbv beta iota delta [negb].
  2:{ eexists. split; [reflexivity|]. discriminate. }
  rewrite py_float_float_of. fold w.
  destruct w as [f|] eqn:Hw.
  2:{ destruct Hfail as [H|[H|[f [H _]]]]; [congruence| |discriminate].
      eexists. split; [reflexivity|]. intros _ [? ?]. discriminate. }
  destruct enhancer as [| | | |e| |] eqn:He;
    try (eexists; split; [reflexivity|]; reflexivity).
  destruct (bool_decide (e ∈ valid_enhancers)) eqn:Hv.
  - apply bool_decide_eq_true in Hv.
    destruct Hfail as [H|[H|[f' [Hf' Hu]]]]; [congruence|now destruct (H e eq_refl)|].
    injection Hf' as <-. rewrite Hu. cbn.
    eexists. split; [reflexivity|]. intros _ _ H. now destruct (H e eq_refl).
  - eexists. split; [reflexivity|]. reflexivity.
Qed.

Definition job_w15 : pydict :=
  [("id", PStr "job-1");
   ("input", PDict [("video_url", PStr "http://h/v.mp4"); ("enhancer_w", PFloat (Fin (3#2)))])].

Lemma validation_before_resources_witness :
  exists msg,
    handler builtins_ex jobenv_ex job_w15 st_empty
      = (Ok (err msg), set_temps unit [] st_empty) /\
    (truthy (PStr "http://h/v.mp4") = true -> is_Some (Some (Fin (3#2))) ->
     (forall e, PStr "GFPGAN" = PStr e -> e ∉ valid_enhancers) ->
     msg = enhancer_error_msg builtins_ex (PStr "GFPGAN")).
Proof.
  refine (validation_before_resources builtins_ex jobenv_ex job_w15
            [("video_url", PStr "http://h/v.mp4"); ("enhancer_w", PFloat (Fin (3#2)))]
            st_empty eq_refl _).
  right; right. exists (Fin (3#2)). split; reflexivity.
Defined.

Lemma cleanup_files_one_ok {Frame} (remove_ok : string -> bool) (p : string) (s : St Frame) :
  exists s', cleanup_files_one remove_ok p s = (Ok tt, s').
Proof.
  unfold cleanup_files_one, catch, bind, path_exists, os_remove, modify, emit, ret, throw.
  cbv beta iota. repeat case_match; simplify_eq; try destruct_and?; eauto.
  all: match goal with a : unit |- _ => destruct a end; eauto.
Qed.

Lemma cleanup_files_ok {Frame} (remove_ok : string -> bool) (ps : list string) (s : St Frame) :
  exists s', cleanup_files remove_ok ps s = (Ok tt, s').
Proof.
  revert s. induction ps as [|p ps IH]; intros s; [eexists; reflexivity|].
  cbn [cleanup_files]. unfold bind.
  destruct (cleanup_files_one_ok remove_ok p s) as [s1 ->]. apply IH.
Qed.

(** The two variants of a job result. *)
Definition is_success (d : pydict) : bool :=
  match dict_get d "status" PNone with
  | PStr st => bool_decide (st = "success")
  | _ => false
  end.

Definition is_failure (d : pydict) : bool :=
  match dict_get d "error" PNone with
  | PStr _ => true
  | _ => false
  end.

Lemma handler_body_one_variant {Frame} (B : Builtins) (J : JobEnv) (job : pydict) :
  post (Frame := Frame) (handler_body B J job)
       (fun d => xorb (is_success d) (is_failure d) = true).
Proof.
  unfold handler_body, package_output. post_walk; reflexivity.
Qed.

(** C5: the handler is total: whatever the job dict and whatever its
    collaborators do, it returns normally (no exception leaves it) a dict
    that is exactly one of a success payload ([status] = "success") and a
    failure payload (an [error] message). *)
Theorem handler_total_one_variant {Frame} (B : Builtins) (J : JobEnv) (job : pydict)
    (s : St Frame) :
  exists d s', handler B J job s = (Ok d, s') /\ xorb (is_success d) (is_failure d) = true.
Proof.
  pose proof (handler_body_one_variant (Frame := Frame) B J job (set_temps Frame [] s)) as Hp.
  unfold handler, bind, catch, modify, get, ret.
  destruct (handler_body B J job (set_temps Frame [] s)) as [[d|e] s1];
    cbv beta iota in Hp |- *;
    destruct (cleanup_files_ok (je_remove_ok J) (st_temps Frame s1) s1) as [s2 Hc];
    rewrite Hc; eauto.
Qed.

(** ** The list [temp_files] *)

(** The operations that do not touch [temp_files]. *)
Section TempsKept.
Context {Frame : Type}.
Local Abbreviation temps := (st_temps Frame).

Lemma keeps_temps_modify (g : St Frame -> St Frame) :
  (forall s, temps (g s) = temps s) -> keeps temps (modify g).
Proof. intros Hg s. apply Hg. Qed.

Lemma keeps_temps_emit e : keeps temps (@emit Frame e).
Proof. intros s. reflexivity. Qed.

Lemma keeps_temps_write_file p b : keeps temps (@write_file Frame p b).
Proof. intros s. reflexivity. Qed.

Lemma keeps_temps_path_exists p : keeps temps (@path_exists Frame p).
Proof. intros s. reflexivity. Qed.

Lemma keeps_temps_getsize p : keeps temps (@getsize Frame p).
Proof. intros s. unfold getsize. cbn. case_match; reflexivity. Qed.

Lemma keeps_temps_read_file p : keeps temps (@read_file Frame p).
Proof. intros s. unfold read_file. cbn. case_match; reflexivity. Qed.

Lemma keeps_temps_video_capture capture p : keeps temps (@video_capture Frame capture p).
Proof. intros s. reflexivity. Qed.

Lemma keeps_temps_release h : keeps temps (@release Frame h).
Proof. intros s. reflexivity. Qed.

Lemma keeps_temps_os_remove ro p : keeps temps (@os_remove Frame ro p).
Proof. intros s. unfold os_remove. case_match; reflexivity. Qed.

End TempsKept.

#[export] Hint Resolve keeps_temps_emit keeps_temps_write_file keeps_temps_path_exists
  keeps_temps_getsize keeps_temps_read_file keeps_temps_video_capture keeps_temps_release
  keeps_temps_os_remove : keeps_db.
#[export] Hint Extern 2 (keeps _ (modify _)) =>
  apply keeps_temps_modify; intros; reflexivity : keeps_db.

Section PipelineTemps.
Context {Frame : Type}.
Variable E : PipeEnv Frame.
Local Abbreviation temps := (st_temps Frame).

Lemma keeps_temps_get_video_details p : keeps temps (get_video_details (pe_capture E) p).
Proof. unfold get_video_details. post_walk. Qed.

Lemma keeps_temps_alloc f : keeps temps (@alloc Frame f).
Proof. intros s. reflexivity. Qed.

Lemma keeps_temps_load l : keeps temps (@load Frame l).
Proof. intros s. reflexivity. Qed.

Lemma keeps_temps_call_enhance enh idx l : keeps temps (call_enhance E enh idx l).
Proof. intros s. unfold call_enhance. repeat case_match; reflexivity. Qed.

Lemma keeps_temps_call_get_final_image idx lo le lr :
  keeps temps (call_get_final_image E idx lo le lr).
Proof. intros s. unfold call_get_final_image. repeat case_match; reflexivity. Qed.

#[local] Hint Resolve keeps_temps_get_video_details keeps_temps_alloc keeps_temps_load
  keeps_temps_call_enhance keeps_temps_call_get_final_image : keeps_db.

Lemma keeps_temps_out_write l : keeps temps (@out_write Frame l).
Proof. unfold out_write. post_walk. Qed.
#[local] Hint Resolve keeps_temps_out_write : keeps_db.

Lemma keeps_temps_frame_step enh fm idx f p : keeps temps (frame_step E enh fm idx f p).
Proof. unfold frame_step. post_walk. Qed.
#[local] Hint Resolve keeps_temps_frame_step : keeps_db.

Lemma keeps_temps_frame_loop enh fm n idx stream p :
  keeps temps (frame_loop E enh fm n idx stream p).
Proof.
  revert idx stream p. induction n as [|n IH]; intros idx [|f rest] p; cbn [frame_loop];
    post_walk.
Qed.

Lemma keeps_temps_makedirs d : keeps temps (makedirs E d).
Proof. unfold makedirs. post_walk. Qed.

#[local] Hint Resolve keeps_temps_frame_loop keeps_temps_makedirs : keeps_db.

Lemma keeps_temps_remux_stage face outfile tmp : keeps temps (remux_stage E face outfile tmp).
Proof. unfold remux_stage, run_ffmpeg, copy2. post_walk. Qed.

Lemma keeps_temps_make_enhancer args : keeps temps (make_enhancer args).
Proof. unfold make_enhancer. post_walk. Qed.

#[local] Hint Resolve keeps_temps_remux_stage : keeps_db.

Lemma keeps_temps_enhance_and_remux args outfile tmp fps w h fc enh fm :
  keeps temps (enhance_and_remux E args outfile tmp fps w h fc enh fm).
Proof. unfold enhance_and_remux, open_writer, writer_release. post_walk. Qed.

End PipelineTemps.

Section HandlerTemps.
Context {Frame : Type}.
Variable B : Builtins.
Variable J : JobEnv.
Local Abbreviation temps := (st_temps Frame).

Lemma keeps_temps_py_float v : keeps temps (py_float B (Frame := Frame) v).
Proof. unfold py_float. post_walk. Qed.

Lemma keeps_temps_validate_video_url url : keeps temps (validate_video_url (Frame := Frame) B J url).
Proof. unfold validate_video_url. post_walk. Qed.

Lemma keeps_temps_write_chunks p cs : keeps temps (write_chunks (Frame := Frame) p cs).
Proof. induction cs as [|c cs IH]; cbn [write_chunks]; post_walk. Qed.

#[local] Hint Resolve keeps_temps_write_chunks : keeps_db.

Lemma keeps_temps_download_video url p : keeps temps (download_video (Frame := Frame) B J url p).
Proof. unfold download_video. post_walk. Qed.

Lemma keeps_temps_write_files files : keeps temps (write_files (Frame := Frame) files).
Proof. induction files as [|[p b] files IH]; cbn [write_files]; post_walk. Qed.

#[local] Hint Resolve keeps_temps_write_files : keeps_db.

Lemma keeps_temps_run_face_enhancement i o e u w :
  keeps temps (run_face_enhancement (Frame := Frame) B J i o e u w).
Proof. unfold run_face_enhancement. post_walk. Qed.

Lemma keeps_temps_package_output o e u w :
  keeps temps (package_output (Frame := Frame) B o e u w).
Proof. unfold package_output. post_walk. Qed.

End HandlerTemps.

#[export] Hint Resolve keeps_temps_get_video_details keeps_temps_make_enhancer
  keeps_temps_enhance_and_remux keeps_temps_makedirs keeps_temps_py_float
  keeps_temps_validate_video_url keeps_temps_download_video
  keeps_temps_run_face_enhancement keeps_temps_package_output : keeps_db.

(** Triples on [temp_files]: from a list satisfying [P], [m] returns [a]
    with a list satisfying [Q a], or raises with a list satisfying [X]. *)
Section TempsTriples.
Context {Frame : Type}.
Local Abbreviation M := (M Frame).
Local Abbreviation temps := (st_temps Frame).

Definition ttriple {A} (P : list string -> Prop) (m : M A)
    (Q : A -> list string -> Prop) (X : list string -> Prop) : Prop :=
  forall s, P (temps s) ->
    match m s with
    | (Ok a, s') => Q a (temps s')
    | (Raise _, s') => X (temps s')
    end.

Lemma ttriple_keeps {A} P (m : M A) X :
  keeps temps m -> (forall l, P l -> X l) -> ttriple P m (fun _ => P) X.
Proof.
  intros Hk HX s Hp. specialize (Hk s).
  destruct (m s) as [[a|e] s']; cbn in Hk; rewrite Hk; auto.
Qed.

Lemma ttriple_keeps_post {A} P (m : M A) Q X :
  keeps temps m -> (forall l, P l -> X l) -> (forall a l, P l -> Q a l) -> ttriple P m Q X.
Proof.
  intros Hk HX HQ s Hp. specialize (Hk s).
  destruct (m s) as [[a|e] s']; cbn in Hk; rewrite Hk; auto.
Qed.

Lemma ttriple_ret_frame {A} P (a : A) X : ttriple P (ret a) (fun _ => P) X.
Proof. intros s Hp. exact Hp. Qed.

Lemma ttriple_ret {A} P (a : A) Q X : (forall l, P l -> Q a l) -> ttriple P (ret a) Q X.
Proof. intros HQ s Hp. apply HQ, Hp. Qed.

Lemma ttriple_throw {A} P e Q X : (forall l, P l -> X l) -> ttriple P (@throw Frame A e) Q X.
Proof. intros HX s Hp. apply HX, Hp. Qed.

Lemma ttriple_bind {A C} P (m : M A) (k : A -> M C) R Q X :
  ttriple P m R X -> (forall a, ttriple (R a) (k a) Q X) -> ttriple P (bind m k) Q X.
Proof.
  intros Hm Hk s Hp. specialize (Hm s Hp). unfold bind.
  destruct (m s) as [[a|e] s']; [apply Hk|]; exact Hm.
Qed.

Lemma ttriple_catch {A} P (m : M A) h Q Y X :
  ttriple P m Q Y -> (forall e, ttriple Y (h e) Q X) -> ttriple P (catch m h) Q X.
Proof.
  intros Hm Hh s Hp. specialize (Hm s Hp). unfold catch.
  destruct (m s) as [[a|e] s']; [|apply Hh]; exact Hm.
Qed.

Lemma ttriple_append_temp P p X :
  ttriple P (append_temp (Frame := Frame) p) (fun _ l => exists l0, P l0 /\ l = (l0 ++ [p])%list) X.
Proof. intros s Hp. cbn. eauto. Qed.

Lemma ttriple_named_temp_file (J : JobEnv) n P X :
  (forall l, P l -> X l) ->
  ttriple P (named_temp_file (Frame := Frame) J n)
    (fun p l => exists l0, P l0 /\ je_tempfile J n = Some p /\ l = (l0 ++ [p])%list) X.
Proof.
  intros HX s Hp. unfold named_temp_file.
  destruct (je_tempfile J n) as [p|] eqn:Ht; cbn; eauto.
Qed.

End TempsTriples.

Ltac temps_walk :=
  repeat match goal with
  | |- ttriple _ (bind _ _) _ _ => eapply ttriple_bind; [|intro]
  | |- ttriple _ (catch _ _) _ _ => eapply ttriple_catch; [|intro]
  | |- ttriple _ (ret _) _ _ => first [eapply ttriple_ret_frame | apply ttriple_ret]
  | |- ttriple _ (throw _) _ _ => apply ttriple_throw
  | |- ttriple _ (append_temp _) _ _ => eapply ttriple_append_temp
  | |- ttriple _ (named_temp_file _ _) _ _ => eapply ttriple_named_temp_file
  | |- ttriple _ (match ?x with _ => _ end) _ _ => destruct x
  | |- ttriple _ _ _ _ => eapply ttriple_keeps; [solve [auto with keeps_db]|]
  | |- ttriple _ _ _ _ => apply ttriple_keeps_post; [solve [auto with keeps_db]| |]
  end.

Definition temp_video_file_of {Frame} (E : PipeEnv Frame) : string :=
  "/app/temp" ++ "/enhanced_video_no_audio_" ++ pe_pid E ++ ".avi".

(** [temp_files] of [main] holds at most the silent video's path. *)
Lemma main_body_temps {Frame} (E : PipeEnv Frame) (args : Args) :
  ttriple (fun l => l = []) (main_body E args)
    (fun _ l => l = [] \/ l = [temp_video_file_of E])
    (fun l => l = [] \/ l = [temp_video_file_of E]).
Proof.
  unfold main_body. cbv zeta. temps_walk.
  all: unfold temp_video_file_of; intros; naive_solver.
Qed.

(** [temp_files] of the handler: a prefix of the two temporary files. *)
Definition handler_temps (J : JobEnv) (l : list string) : Prop :=
  l = [] \/
  (exists p0, je_tempfile J 0 = Some p0 /\ l = [p0]) \/
  (exists p0 p1, je_tempfile J 0 = Some p0 /\ je_tempfile J 1 = Some p1 /\ l = [p0; p1]).

Lemma handler_body_temps {Frame} (B : Builtins) (J : JobEnv) (job : pydict) :
  ttriple (Frame := Frame) (fun l => l = []) (handler_body B J job)
    (fun _ l => handler_temps J l) (handler_temps J).
Proof.
  unfold handler_body. cbv zeta. temps_walk.
  all: unfold handler_temps; intros; naive_solver.
Qed.

(** ** Cleanup *)

(** The log lines of one removal attempt on [p] when the files are [fs]:
    nothing if [p] does not exist, otherwise one line saying whether
    [os.remove] succeeded. *)
Definition attempt_outcome (remove_ok : string -> bool) (fs : gmap string bytes)
    (p : string) : list event :=
  if bool_decide (is_Some (fs !! p))
  then (if remove_ok p then [EvRemoved p] else [EvRemoveFailed p])
  else [].

(** The same for [cleanup_files] of the handler, which skips [""]. *)
Definition attempt_outcome_h (remove_ok : string -> bool) (fs : gmap string bytes)
    (p : string) : list event :=
  if bool_decide (p <> "") then attempt_outcome remove_ok fs p else [].

Lemma cleanup_one_spec {Frame} (ro : string -> bool) (p : string) (s : St Frame) :
  exists s', cleanup_one ro p s = (Ok tt, s') /\
    st_log Frame s' = (st_log Frame s ++ attempt_outcome ro (st_fs Frame s) p)%list /\
    (forall q, q <> p -> st_fs Frame s' !! q = st_fs Frame s !! q).
Proof.
  unfold cleanup_one, attempt_outcome, catch, bind, path_exists, os_remove, emit, modify, ret, throw.
  destruct (bool_decide (is_Some (st_fs Frame s !! p))); [destruct (ro p)|]; cbn;
    (eexists; split; [reflexivity|split]); rewrite ?app_nil_r; auto.
  intros q Hq. apply lookup_delete_ne. congruence.
Qed.

Lemma cleanup_files_one_spec {Frame} (ro : string -> bool) (p : string) (s : St Frame) :
  exists s', cleanup_files_one ro p s = (Ok tt, s') /\
    st_log Frame s' = (st_log Frame s ++ attempt_outcome_h ro (st_fs Frame s) p)%list /\
    (forall q, q <> p -> st_fs Frame s' !! q = st_fs Frame s !! q).
Proof.
  unfold cleanup_files_one, attempt_outcome_h, attempt_outcome, catch, bind, path_exists,
    os_remove, emit, modify, ret, throw.
  destruct (bool_decide (p <> "")); cbn [andb];
  [destruct (bool_decide (is_Some (st_fs Frame s !! p))); [destruct (ro p)|]|]; cbn;
    (eexists; split; [reflexivity|split]); rewrite ?app_nil_r; auto.
  intros q Hq. apply lookup_delete_ne. congruence.
Qed.

Lemma attempt_outcome_frame (ro : string -> bool) (fs fs' : gmap string bytes)
    (p : string) (ps : list string) :
  p ∉ ps -> (forall q, q <> p -> fs' !! q = fs !! q) ->
  map (attempt_outcome ro fs') ps = map (attempt_outcome ro fs) ps.
Proof.
  intros Hp Hfs. apply map_ext_in. intros q Hq. unfold attempt_outcome.
  rewrite Hfs; [reflexivity|]. intros ->. apply Hp. apply list_elem_of_In. exact Hq.
Qed.

Lemma attempt_outcome_h_frame (ro : string -> bool) (fs fs' : gmap string bytes)
    (p : string) (ps : list string) :
  p ∉ ps -> (forall q, q <> p -> fs' !! q = fs !! q) ->
  map (attempt_outcome_h ro fs') ps = map (attempt_outcome_h ro fs) ps.
Proof.
  intros Hp Hfs. apply map_ext_in. intros q Hq. unfold attempt_outcome_h, attempt_outcome.
  rewrite Hfs; [reflexivity|]. intros ->. apply Hp. apply list_elem_of_In. exact Hq.
Qed.

(** [cleanup_temp_files] over distinct paths never raises and makes one
    removal attempt per path, in order. *)
Lemma cleanup_temp_files_spec {Frame} (ro : string -> bool) (ps : list string) (s : St Frame) :
  NoDup ps ->
  exists s', cleanup_temp_files ro ps s = (Ok tt, s') /\
    st_log Frame s' = (st_log Frame s ++ concat (map (attempt_outcome ro (st_fs Frame s)) ps))%list.
Proof.
  revert s. induction ps as [|p ps IH]; intros s Hnd.
  - exists s. rewrite app_nil_r. auto.
  - apply NoDup_cons in Hnd as [Hp Hnd].
    destruct (cleanup_one_spec ro p s) as (s1 & H1 & Hl1 & Hf1).
    destruct (IH s1 Hnd) as (s2 & H2 & Hl2).
    exists s2. cbn [cleanup_temp_files]. unfold bind. rewrite H1, H2. split; [reflexivity|].
    rewrite Hl2, Hl1, (attempt_outcome_frame ro _ _ p ps Hp Hf1).
    cbn [map concat]. rewrite app_assoc. reflexivity.
Qed.

Lemma cleanup_files_spec {Frame} (ro : string -> bool) (ps : list string) (s : St Frame) :
  NoDup ps ->
  exists s', cleanup_files ro ps s = (Ok tt, s') /\
    st_log Frame s' = (st_log Frame s ++ concat (map (attempt_outcome_h ro (st_fs Frame s)) ps))%list.
Proof.
  revert s. induction ps as [|p ps IH]; intros s Hnd.
  - exists s. rewrite app_nil_r. auto.
  - apply NoDup_cons in Hnd as [Hp Hnd].
    destruct (cleanup_files_one_spec ro p s) as (s1 & H1 & Hl1 & Hf1).
    destruct (IH s1 Hnd) as (s2 & H2 & Hl2).
    exists s2. cbn [cleanup_files]. unfold bind. rewrite H1, H2. split; [reflexivity|].
    rewrite Hl2, Hl1, (attempt_outcome_h_frame ro _ _ p ps Hp Hf1).
    cbn [map concat]. rewrite app_assoc. reflexivity.
Qed.

(** C8: on every exit path, [main] of the pipeline and the job handler
    make exactly one removal attempt for each path recorded in their
    [temp_files] (the recorded paths are distinct), in order; each
    attempt is logged ([EvRemoved], or [EvRemoveFailed] when [os.remove]
    fails; nothing for a path that no longer exists), no exception leaves
    the cleanup, and the result of the [try]/[except] block, computed
    before the cleanup, is returned unchanged.  For the handler the two
    temporary file names are assumed distinct, as NamedTemporaryFile
    guarantees while both files exist. *)
Theorem cleanup_on_every_exit :
  (forall (Frame : Type) (E : PipeEnv Frame) (args : Args) (s : St Frame) r1 s1,
     catch (main_body E args) (fun _ => ret false) (set_temps Frame [] s) = (r1, s1) ->
     NoDup (st_temps Frame s1) /\
     exists r s', r1 = Ok r /\ main E args s = (Ok r, s') /\
       st_log Frame s' = (st_log Frame s1 ++ concat (map (attempt_outcome (pe_remove_ok E)
                                                         (st_fs Frame s1)) (st_temps Frame s1)))%list) /\
  (forall (Frame : Type) (B : Builtins) (J : JobEnv) (job : pydict) (s : St Frame) r1 s1,
     (forall p0 p1, je_tempfile J 0 = Some p0 -> je_tempfile J 1 = Some p1 -> p0 <> p1) ->
     catch (handler_body B J job) (fun e => ret (err ("Lỗi server: " ++ b_exc_str B e)))
       (set_temps Frame [] s) = (r1, s1) ->
     NoDup (st_temps Frame s1) /\
     exists r s', r1 = Ok r /\ handler B J job s = (Ok r, s') /\
       st_log Frame s' = (st_log Frame s1 ++ concat (map (attempt_outcome_h (je_remove_ok J)
                                                         (st_fs Frame s1)) (st_temps Frame s1)))%list).
Proof.
  split.
  - intros Frame E args s r1 s1 Heq.
    assert (Ht : ttriple (Frame := Frame) (fun l => l = [])
                   (catch (main_body E args) (fun _ => ret false))
                   (fun _ l => l = [] \/ l = [temp_video_file_of E])
                   (fun l => l = [] \/ l = [temp_video_file_of E])).
    { eapply ttriple_catch; [apply main_body_temps|]. intros e. apply ttriple_ret. auto. }
    specialize (Ht (set_temps Frame [] s) eq_refl). rewrite Heq in Ht.
    assert (Hr : exists r, r1 = Ok r).
    { revert Heq. unfold catch, ret. destruct (main_body E args (set_temps Frame [] s)) as [[a|e] s2];
        intros Heq; inversion Heq; eauto. }
    destruct Hr as [r ->].
    assert (Hnd : NoDup (st_temps Frame s1)).
    { destruct Ht as [-> | ->]; [constructor|apply NoDup_singleton]. }
    split; [exact Hnd|].
    destruct (cleanup_temp_files_spec (pe_remove_ok E) (st_temps Frame s1) s1 Hnd) as (s2 & Hc & Hl).
    exists r, s2. split; [reflexivity|]. split; [|exact Hl].
    unfold main, bind at 1, modify. cbv beta iota.
    unfold bind at 1. rewrite Heq. unfold bind, get, ret. rewrite Hc. reflexivity.
  - intros Frame B J job s r1 s1 Hdist Heq.
    assert (Ht : ttriple (Frame := Frame) (fun l => l = [])
                   (catch (handler_body B J job)
                          (fun e => ret (err ("Lỗi server: " ++ b_exc_str B e))))
                   (fun _ l => handler_temps J l) (handler_temps J)).
    { eapply ttriple_catch; [apply handler_body_temps|]. intros e. apply ttriple_ret. auto. }
    specialize (Ht (set_temps Frame [] s) eq_refl). rewrite Heq in Ht.
    assert (Hr : exists r, r1 = Ok r).
    { revert Heq. unfold catch, ret. destruct (handler_body B J job (set_temps Frame [] s)) as [[a|e] s2];
        intros Heq; inversion Heq; eauto. }
    destruct Hr as [r ->].
    assert (Hnd : NoDup (st_temps Frame s1)).
    { destruct Ht as [-> | [(p0 & _ & ->) | (p0 & p1 & H0 & H1 & ->)]].
      - constructor.
      - apply NoDup_singleton.
      - apply NoDup_cons. split; [|apply NoDup_singleton].
        rewrite list_elem_of_singleton. apply (Hdist p0 p1 H0 H1). }
    split; [exact Hnd|].
    destruct (cleanup_files_spec (je_remove_ok J) (st_temps Frame s1) s1 Hnd) as (s2 & Hc & Hl).
    exists r, s2. split; [reflexivity|]. split; [|exact Hl].
    unfold handler, bind at 1, modify. cbv beta iota.
    unfold bind at 1. rewrite Heq. unfold bind, get, ret. rewrite Hc. reflexivity.
Qed.

(** ** Concrete pipelines *)

(** An environment for [main] whose frames are numbers: the source
    "/in.mp4" has [count] frames according to its header and yields
    [frames]; the enhancer, FaceID and ffmpeg are given. *)
Definition pipe_mk
    (enh : nat -> (nat -> nat) -> nat -> nat -> (nat -> nat) * nat * res nat)
    (gfi : nat -> (nat -> nat) -> nat -> nat -> nat -> nat -> (nat -> nat) * nat * res nat)
    (frames : list nat) (count : Q) (ff : ff_outcome) : PipeEnv nat := {|
  pe_capture := fun p => if bool_decide (p = "/in.mp4")
                         then Some (mkCapture 25 4 2 count frames) else None;
  pe_makedirs_ok := fun _ => true;
  pe_pid := "7";
  pe_basename := fun p => p;
  pe_splitext := fun p => (p, "");
  pe_dirname := fun _ => "/out";
  pe_writer_opens := fun _ _ _ _ => true;
  pe_encode := fun _ _ _ fr => map (fun _ => Byte.x2a) fr;
  pe_enhance := fun _ => enh;
  pe_get_final_image := gfi;
  pe_ffmpeg := fun _ _ => ff;
  pe_copy_ok := fun _ => true;
  pe_remove_ok := fun _ => true
|}.

(** The mock models of the source: [enhance] and [get_final_image]
    return the buffer they are given. *)
Definition enhance_id : nat -> (nat -> nat) -> nat -> nat -> (nat -> nat) * nat * res nat :=
  fun _ m n l => (m, n, Ok l).
Definition final_image_id
    : nat -> (nat -> nat) -> nat -> nat -> nat -> nat -> (nat -> nat) * nat * res nat :=
  fun _ m n _ le _ => (m, n, Ok le).

Definition pipe_ok : PipeEnv nat :=
  pipe_mk enhance_id final_image_id [10; 11; 12] 3 (FfExit 0 (Some [Byte.x07])).

Definition args_ex : Args := mkArgs "/in.mp4" "GFPGAN" (1#2) "256" true (Some "/out/o.mp4").

Definition st_pipe : St nat :=
  mkSt nat (<["/in.mp4" := [Byte.x01]]> (<[gfpgan_model_path := []]>
             (<[faceid_model_path := []]> ∅)))
       (fun _ => 0) 0 [] [] [] [].

Definition job_ok : pydict :=
  [("id", PStr "job-2"); ("input", PDict [("video_url", PStr "http://h/v.mp4")])].

Lemma cleanup_on_every_exit_witness :
  (exists r1 s1,
     catch (main_body pipe_ok args_ex) (fun _ => ret false) (set_temps nat [] st_pipe) = (r1, s1) /\
     NoDup (st_temps nat s1) /\
     exists r s', r1 = Ok r /\ main pipe_ok args_ex st_pipe = (Ok r, s') /\
       st_log nat s' = (st_log nat s1 ++ concat (map (attempt_outcome (pe_remove_ok pipe_ok)
                                                       (st_fs nat s1)) (st_temps nat s1)))%list) /\
  (exists r1 s1,
     catch (handler_body builtins_ex jobenv_ex job_ok)
           (fun e => ret (err ("Lỗi server: " ++ b_exc_str builtins_ex e)))
           (set_temps unit [] st_empty) = (r1, s1) /\
     NoDup (st_temps unit s1) /\
     exists r s', r1 = Ok r /\ handler builtins_ex jobenv_ex job_ok st_empty = (Ok r, s') /\
       st_log unit s' = (st_log unit s1 ++ concat (map (attempt_outcome_h (je_remove_ok jobenv_ex)
                                                         (st_fs unit s1)) (st_temps unit s1)))%list).
Proof.
  split.
  - eexists _, _. split; [vm_compute; reflexivity|].
    apply (proj1 cleanup_on_every_exit). vm_compute. reflexivity.
  - eexists _, _. split; [vm_compute; reflexivity|].
    apply (proj2 cleanup_on_every_exit).
    + intros p0 p1 H0 H1. vm_compute in H0, H1. congruence.
    + vm_compute. reflexivity.
Defined.

(** ** The frame loop *)

Section FrameLoop.
Context {Frame : Type}.
Variable E : PipeEnv Frame.
Variable enh : enhancer_id.

(** A capability result [(m', n', r)] on buffers [m] with next free
    buffer [n] that leaves every existing buffer as it was. *)
Definition untouched (m : nat -> Frame) (n : nat) (r : (nat -> Frame) * nat * res nat) : Prop :=
  let '(m', n', _) := r in n <= n' /\ forall i, i < n -> m' i = m i.

Ltac step_unfold :=
  unfold frame_step, alloc, load, call_enhance, call_get_final_image, out_write,
    catch, bind, modify, emit, ret, get; cbn [st_mem st_next st_written st_log set_mem
    set_written set_log fst snd].

(** Every iteration returns normally and writes exactly one frame. *)
Lemma frame_step_shape fm idx f p (s : St Frame) :
  exists p' x s', frame_step E enh fm idx f p s = (Ok p', s') /\
    st_written Frame s' = (st_written Frame s ++ [x])%list /\ (p' = p \/ p' = S p).
Proof.
  step_unfold.
  destruct (pe_enhance E enh idx _ _ _) as [[m1 n1] [le|e]]; cbn;
    [destruct fm; cbn; [destruct (pe_get_final_image E idx _ _ _ _ _) as [[m2 n2] [r|e]]; cbn|]|];
    eauto 10.
Qed.

(** An iteration whose transform and identity step succeed counts its frame. *)
Lemma frame_step_success fm idx f p (s : St Frame) :
  (forall m n l, exists m' n' r, pe_enhance E enh idx m n l = (m', n', Ok r)) ->
  (fm = true -> forall m n lo le lr, exists m' n' r,
     pe_get_final_image E idx m n lo le lr = (m', n', Ok r)) ->
  exists x s', frame_step E enh fm idx f p s = (Ok (S p), s') /\
    st_written Frame s' = (st_written Frame s ++ [x])%list.
Proof.
  intros He Hg. step_unfold.
  match goal with |- context [pe_enhance E enh idx ?m ?n ?l] =>
    destruct (He m n l) as (m1 & n1 & r1 & ->) end.
  destruct fm; cbn; [|eauto].
  match goal with |- context [pe_get_final_image E idx ?m ?n ?a ?b ?c] =>
    destruct (Hg eq_refl m n a b c) as (m2 & n2 & r2 & ->) end.
  cbn. eauto.
Qed.

(** The transform raises on frame [j] without modifying the buffer [l]
    it is given; what it does to other buffers is not constrained. *)
Definition transform_fails_at (j : nat) : Prop :=
  forall m n l, exists e,
    let '(m', _, r) := pe_enhance E enh j m n l in m' l = m l /\ r = Raise e.

(** An iteration whose transform raises without modifying the buffer it
    is given writes the frame it read and does not count it. *)
Lemma frame_step_transform_fails fm idx f p (s : St Frame) :
  transform_fails_at idx ->
  exists s', frame_step E enh fm idx f p s = (Ok p, s') /\
    st_written Frame s' = (st_written Frame s ++ [f])%list /\
    st_log Frame s' = (st_log Frame s ++ [EvFrameError idx])%list.
Proof.
  intros He. step_unfold.
  match goal with |- context [pe_enhance E enh idx ?m ?n ?l] =>
    destruct (He m n l) as (e & Hu);
    destruct (pe_enhance E enh idx m n l) as [[m1 n1] r1] end.
  destruct Hu as [Hu ->]. cbn.
  eexists; split; [reflexivity|]. cbn. rewrite Hu.
  replace (Nat.eqb (st_next Frame s) (S (st_next Frame s))) with false
    by (symmetry; apply Nat.eqb_neq; lia).
  rewrite Nat.eqb_refl. auto.
Qed.

Definition transform_succeeds_at (j : nat) : Prop :=
  forall m n l, exists m' n' r, pe_enhance E enh j m n l = (m', n', Ok r).

Definition identity_succeeds (fm : bool) : Prop :=
  fm = true -> forall j m n lo le lr, exists m' n' r,
    pe_get_final_image E j m n lo le lr = (m', n', Ok r).

(** The loop writes one frame per iteration: [min n (length stream)]
    frames, the first ones read when every transform fails. *)
Lemma frame_loop_written fm n idx stream p (s : St Frame) :
  exists p' s' ws, frame_loop E enh fm n idx stream p s = (Ok p', s') /\
    st_written Frame s' = (st_written Frame s ++ ws)%list /\
    length ws = Nat.min n (length stream) /\
    ((forall j, transform_fails_at j) -> ws = take n stream).
Proof.
  revert idx stream p s. induction n as [|n IH]; intros idx stream p s.
  - exists p, s, []. rewrite app_nil_r. cbn. auto.
  - destruct stream as [|f rest].
    + exists p, s, []. rewrite app_nil_r. cbn. auto.
    + destruct (frame_step_shape fm idx f p s) as (p1 & x & s1 & H1 & Hw1 & _).
      destruct (IH (S idx) rest p1 s1) as (p' & s' & ws & H2 & Hw2 & Hl2 & Ht2).
      exists p', s', (x :: ws). cbn [frame_loop]. unfold bind at 1. rewrite H1.
      split; [exact H2|]. split; [rewrite Hw2, Hw1, <- app_assoc; reflexivity|].
      split; [cbn; lia|].
      intros Hall. cbn. rewrite (Ht2 Hall). f_equal.
      destruct (frame_step_transform_fails fm idx f p s (Hall idx)) as (s2 & H3 & Hw3 & _).
      rewrite H1 in H3. injection H3 as _ <-. rewrite Hw1 in Hw3.
      apply app_inj_tail in Hw3. apply (proj2 Hw3).
Qed.

Lemma frame_loop_one_failure_gen fm k stream idx p (s : St Frame) :
  transform_fails_at k ->
  (forall j, j <> k -> transform_succeeds_at j) ->
  identity_succeeds fm ->
  exists s' ws, frame_loop E enh fm (length stream) idx stream p s =
      (Ok (p + length stream - (if bool_decide (idx <= k < idx + length stream) then 1 else 0)), s') /\
    st_written Frame s' = (st_written Frame s ++ ws)%list /\
    length ws = length stream /\
    (idx <= k -> ws !! (k - idx) = stream !! (k - idx)).
Proof.
  intros Hk Hj Hg. revert idx p s. induction stream as [|f rest IH]; intros idx p s.
  - exists s, []. rewrite app_nil_r. cbn [length frame_loop].
    case_bool_decide; [lia|]. rewrite Nat.add_0_r, Nat.sub_0_r. auto.
  - cbn [length frame_loop]. unfold bind at 1.
    destruct (decide (idx = k)) as [<-|Hne].
    + destruct (frame_step_transform_fails fm idx f p s Hk) as (s1 & H1 & Hw1 & _).
      rewrite H1.
      destruct (IH (S idx) p s1) as (s' & ws & H2 & Hw2 & Hl2 & _).
      exists s', (f :: ws). rewrite H2.
      rewrite bool_decide_false by lia. rewrite bool_decide_true by lia.
      split; [f_equal; f_equal; lia|].
      split; [rewrite Hw2, Hw1, <- app_assoc; reflexivity|].
      split; [cbn; lia|]. intros _. rewrite Nat.sub_diag. reflexivity.
    + destruct (frame_step_success fm idx f p s (Hj idx Hne) (fun Ht => Hg Ht idx)) as (x & s1 & H1 & Hw1).
      rewrite H1.
      destruct (IH (S idx) (S p) s1) as (s' & ws & H2 & Hw2 & Hl2 & Hk2).
      exists s', (x :: ws). rewrite H2.
      split.
      { f_equal. f_equal. repeat case_bool_decide; lia. }
      split; [rewrite Hw2, Hw1, <- app_assoc; reflexivity|].
      split; [cbn; lia|].
      intros Hle. destruct (k - idx) as [|d] eqn:Hd; [lia|].
      cbn. replace d with (k - S idx) by lia. apply Hk2. lia.
Qed.

End FrameLoop.

Lemma bind_ok {Frame A C} (m : M Frame A) (k : A -> M Frame C) (s s' : St Frame) (a : A) :
  m s = (Ok a, s') -> bind m k s = k a s'.
Proof. intros H. unfold bind. rewrite H. reflexivity. Qed.

(** The operations after the frame loop do not touch the frames written. *)
Section WrittenKept.
Context {Frame : Type}.
Variable E : PipeEnv Frame.
Local Abbreviation written := (st_written Frame).

Lemma keeps_written_emit e : keeps written (@emit Frame e).
Proof. intros s. reflexivity. Qed.
Lemma keeps_written_write_file p b : keeps written (@write_file Frame p b).
Proof. intros s. reflexivity. Qed.
Lemma keeps_written_path_exists p : keeps written (@path_exists Frame p).
Proof. intros s. reflexivity. Qed.
Lemma keeps_written_read_file p : keeps written (@read_file Frame p).
Proof. intros s. unfold read_file. case_match; reflexivity. Qed.
Lemma keeps_written_release h : keeps written (@release Frame h).
Proof. intros s. reflexivity. Qed.

#[local] Hint Resolve keeps_written_emit keeps_written_write_file keeps_written_path_exists
  keeps_written_read_file keeps_written_release : keeps_db.

Lemma keeps_written_after_loop vs face outfile tmp fps w h :
  keeps written (release vs ;;; writer_release E tmp fps w h ;;; remux_stage E face outfile tmp).
Proof. unfold writer_release, remux_stage, makedirs, run_ffmpeg, copy2. post_walk. Qed.

End WrittenKept.

(** Concrete capabilities: a transform that raises on frame [k] only, one
    that raises on every frame, one that returns a new buffer holding
    [100 + x] for a frame [x], and an identity step that raises. *)
Definition enhance_fail_at (k : nat)
    : nat -> (nat -> nat) -> nat -> nat -> (nat -> nat) * nat * res nat :=
  fun j m n l => if Nat.eqb j k then (m, n, Raise ValueError) else (m, n, Ok l).
Definition enhance_fail_all
    : nat -> (nat -> nat) -> nat -> nat -> (nat -> nat) * nat * res nat :=
  fun _ m n _ => (m, n, Raise ValueError).
Definition enhance_fresh
    : nat -> (nat -> nat) -> nat -> nat -> (nat -> nat) * nat * res nat :=
  fun _ m n l => (fun i => if Nat.eqb i n then 100 + m l else m i, S n, Ok n).
Definition final_image_fail
    : nat -> (nat -> nat) -> nat -> nat -> nat -> nat -> (nat -> nat) * nat * res nat :=
  fun _ m n _ _ _ => (m, n, Raise ValueError).

Definition enh_ex : enhancer_id := (gfpgan_model_path, Some (1#2)).

(** C1 (counterexample): the transform raises on frame 1 of 3; the loop
    completes and writes the original frame 11 at position 1, but
    [processed_frames] is 2, not 3. *)
Lemma frames_processed_counterexample :
  fst (frame_loop (pipe_mk (enhance_fail_at 1) final_image_id [10; 11; 12] 3 (FfExit 0 None))
         enh_ex false 3 0 [10; 11; 12] 0 st_pipe) = Ok 2 /\
  st_written nat (snd (frame_loop (pipe_mk (enhance_fail_at 1) final_image_id [10; 11; 12] 3
                                    (FfExit 0 None))
                         enh_ex false 3 0 [10; 11; 12] 0 st_pipe)) = [10; 11; 12].
Proof. vm_compute. split; reflexivity. Qed.

(** C1 (amended): if the transform raises on frame [k] only, without
    modifying the buffer it is given, and the identity step (when
    enabled) never raises, the loop over the [N] frames completes, writes
    [N] frames, the one at position [k] being the original frame read
    there, and [processed_frames] is [N - 1]: it counts the frames whose
    transform and identity step succeeded. *)
Theorem frame_loop_one_failure {Frame} (E : PipeEnv Frame) (enh : enhancer_id) (fm : bool)
    (stream : list Frame) (k : nat) (s : St Frame) :
  k < length stream ->
  transform_fails_at E enh k ->
  (forall j, j <> k -> transform_succeeds_at E enh j) ->
  identity_succeeds E fm ->
  exists s' ws, frame_loop E enh fm (length stream) 0 stream 0 s = (Ok (length stream - 1), s') /\
    st_written Frame s' = (st_written Frame s ++ ws)%list /\
    length ws = length stream /\
    ws !! k = stream !! k.
Proof.
  intros Hlt Hk Hj Hg.
  destruct (frame_loop_one_failure_gen E enh fm k stream 0 0 s Hk Hj Hg)
    as (s' & ws & H & Hw & Hl & Hat).
  rewrite bool_decide_true in H by lia.
  exists s', ws. split; [exact H|]. split; [exact Hw|]. split; [exact Hl|].
  rewrite Nat.sub_0_r in Hat. apply Hat. lia.
Qed.

Lemma frame_loop_one_failure_witness :
  exists s' ws,
    frame_loop (pipe_mk (enhance_fail_at 1) final_image_id [10; 11; 12] 3 (FfExit 0 None))
      enh_ex true (length [10; 11; 12]) 0 [10; 11; 12] 0 st_pipe
      = (Ok (length [10; 11; 12] - 1), s') /\
    st_written nat s' = (st_written nat st_pipe ++ ws)%list /\
    length ws = length [10; 11; 12] /\
    ws !! 1 = [10; 11; 12] !! 1.
Proof.
  apply (frame_loop_one_failure _ enh_ex true [10; 11; 12] 1 st_pipe).
  - simpl. lia.
  - intros m n l. exists ValueError. simpl. split; reflexivity.
  - intros j Hj m n l. exists m, n, l. simpl.
    unfold enhance_fail_at. destruct (Nat.eqb_spec j 1); [contradiction|reflexivity].
  - intros _ j m n lo le lr. exists m, n, le. reflexivity.
Defined.

Lemma open_writer_ok {Frame} (E : PipeEnv Frame) path fps w h (s : St Frame) :
  pe_writer_opens E path fps w h = true ->
  exists s', open_writer E path fps w h s = (Ok tt, s') /\ st_written Frame s' = [].
Proof. intros Hw. unfold open_writer. rewrite Hw. eexists. split; reflexivity. Qed.

(** The source "/in.mp4" yields 3 frames but its header announces 2; the
    transform raises on every frame. *)
Definition pipe_c2 : PipeEnv nat :=
  pipe_mk enhance_fail_all final_image_id [10; 11; 12] 2 (FfExit 0 (Some [Byte.x07])).

(** C2 (counterexample): a full, successful run on a video with 3
    readable frames whose header reports 2 frames writes only 2 frames. *)
Lemma frame_count_counterexample :
  fst (main pipe_c2 args_ex st_pipe) = Ok true /\
  st_written nat (snd (main pipe_c2 args_ex st_pipe)) = [10; 11] /\
  length (st_written nat (snd (main pipe_c2 args_ex st_pipe))) <> length [10; 11; 12].
Proof. vm_compute. split; [reflexivity|split; [reflexivity|discriminate]]. Qed.

(** C2 (amended): once the source and the writer are open, the frames
    handed to the writer during a run are [min(frame_count, N)] frames, one
    per iteration, where [frame_count] is the count reported by the probe
    ([int(video.get(CAP_PROP_FRAME_COUNT))], none when it is negative) and
    [N] the number of readable frames, whatever the transform and the
    identity step do; when the transform raises on every frame without
    modifying the buffer it is given, they are exactly the first
    [min(frame_count, N)] frames read, in order. *)
Theorem pipeline_writes_min_frames {Frame} (E : PipeEnv Frame) (args : Args)
    (outfile tmp : string) (fps : Q) (w h fc : Z) (enh : enhancer_id) (fm : bool)
    (c : Capture Frame) (s : St Frame) :
  pe_capture E (a_face args) = Some c ->
  pe_writer_opens E tmp fps w h = true ->
  exists ws, st_written Frame (snd (enhance_and_remux E args outfile tmp fps w h fc enh fm s)) = ws /\
    length ws = Nat.min (Z.to_nat fc) (length (cap_frames c)) /\
    ((forall j, transform_fails_at E enh j) -> ws = take (Z.to_nat fc) (cap_frames c)).
Proof.
  intros Hc Hw.
  assert (Hvc : video_capture (pe_capture E) (a_face args) s =
                (Ok (length (st_handles Frame s), Some c),
                 set_handles Frame (st_handles Frame s ++ [true])%list s)).
  { unfold video_capture. rewrite Hc. reflexivity. }
  unfold enhance_and_remux. rewrite (bind_ok _ _ _ _ _ Hvc). cbv beta iota.
  destruct (open_writer_ok E tmp fps w h
              (set_handles Frame (st_handles Frame s ++ [true])%list s) Hw) as (s2 & Ho & Hw2).
  rewrite (bind_ok _ _ _ _ _ Ho).
  destruct (frame_loop_written E enh fm (Z.to_nat fc) 0 (cap_frames c) 0 s2)
    as (p' & s3 & ws & Hl & Hw3 & Hlen & Hall).
  rewrite (bind_ok _ _ _ _ _ Hl).
  rewrite (keeps_written_after_loop E _ (a_face args) outfile tmp fps w h s3).
  rewrite Hw3, Hw2. exists ws. auto.
Qed.

Lemma pipeline_writes_min_frames_witness :
  exists ws, st_written nat (snd (enhance_and_remux pipe_c2 args_ex "/out/o.mp4"
                                    (temp_video_file_of pipe_c2) 25 4 2 2 enh_ex true st_pipe)) = ws /\
    length ws = Nat.min (Z.to_nat 2) (length [10; 11; 12]) /\
    ((forall j, transform_fails_at pipe_c2 enh_ex j) -> ws = take (Z.to_nat 2) [10; 11; 12]).
Proof.
  apply (pipeline_writes_min_frames pipe_c2 args_ex "/out/o.mp4" (temp_video_file_of pipe_c2)
           25 4 2 2 enh_ex true (mkCapture 25 4 2 2 [10; 11; 12]) st_pipe).
  - vm_compute. reflexivity.
  - vm_compute. reflexivity.
Defined.

(** The transform returns a new buffer holding [100 + x]; the identity
    step raises. *)
Definition pipe_c3 : PipeEnv nat :=
  pipe_mk enhance_fresh final_image_fail [7] 1 (FfExit 0 (Some [Byte.x07])).

(** C3 (counterexample): the transform turns frame 7 into 107, the
    identity step then raises; the frame written is 7, not 107. *)
Lemma identity_failure_counterexample :
  fst (frame_step pipe_c3 enh_ex true 0 7 0 st_pipe) = Ok 0 /\
  st_written nat (snd (frame_step pipe_c3 enh_ex true 0 7 0 st_pipe)) = [7] /\
  st_written nat (snd (frame_step pipe_c3 enh_ex true 0 7 0 st_pipe)) <> [107].
Proof. vm_compute. split; [reflexivity|split; [reflexivity|discriminate]]. Qed.

(** C3 (amended): with identity selection enabled, if the transform
    succeeds and the identity step raises, the error does not leave the
    iteration: the iteration returns normally, the error is logged, the
    frame is not counted, and the frame written is the current contents
    of the buffer [frame] the transform was given (the buffer allocated
    for the frame read, at [st_next s]), not the transformed frame.  When
    neither step modifies existing buffers in place, that is the original
    frame read. *)
Theorem identity_failure_writes_original {Frame} (E : PipeEnv Frame) (enh : enhancer_id)
    (idx : nat) (f : Frame) (p : nat) (s : St Frame) :
  (forall m n l, exists r, snd (pe_enhance E enh idx m n l) = Ok r) ->
  (forall m n lo le lr, exists e, snd (pe_get_final_image E idx m n lo le lr) = Raise e) ->
  exists s', frame_step E enh true idx f p s = (Ok p, s') /\
    st_log Frame s' = (st_log Frame s ++ [EvFrameError idx])%list /\
    st_written Frame s' = (st_written Frame s ++ [st_mem Frame s' (st_next Frame s)])%list /\
    ((forall m n l, untouched m n (pe_enhance E enh idx m n l)) ->
     (forall m n lo le lr, untouched m n (pe_get_final_image E idx m n lo le lr)) ->
     st_written Frame s' = (st_written Frame s ++ [f])%list).
Proof.
  intros He Hg.
  unfold frame_step, alloc, load, call_enhance, call_get_final_image, out_write,
    catch, bind, modify, emit, ret, get.
  cbn [st_mem st_next st_written st_log set_mem set_written set_log fst snd].
  match goal with |- context [pe_enhance E enh idx ?m ?n ?l] =>
    destruct (He m n l) as [r1 Hr1];
    assert (U1 : (forall m' n' l', untouched m' n' (pe_enhance E enh idx m' n' l')) ->
                 untouched m n (pe_enhance E enh idx m n l)) by auto;
    destruct (pe_enhance E enh idx m n l) as [[m1 n1] r1'] end.
  cbn in Hr1. subst r1'. cbn.
  match goal with |- context [pe_get_final_image E idx ?m ?n ?a ?b ?c] =>
    destruct (Hg m n a b c) as [e2 Hr2];
    assert (U2 : (forall m' n' lo le lr,
                    untouched m' n' (pe_get_final_image E idx m' n' lo le lr)) ->
                 untouched m n (pe_get_final_image E idx m n a b c)) by auto;
    destruct (pe_get_final_image E idx m n a b c) as [[m2 n2] r2'] end.
  cbn in Hr2. subst r2'. cbn.
  eexists; split; [reflexivity|]. cbn.
  split; [reflexivity|]. split; [reflexivity|].
  intros Hu1 Hu2. destruct (U1 Hu1) as [Hn1 Hm1]. destruct (U2 Hu2) as [_ Hm2].
  rewrite Hm2 by lia. rewrite Hm1 by lia. rewrite Nat.eqb_refl.
  repeat case_match; auto.
Qed.

Definition pipe_c3_ok : PipeEnv nat :=
  pipe_mk enhance_id final_image_fail [7] 1 (FfExit 0 (Some [Byte.x07])).

Lemma identity_failure_writes_original_witness :
  exists s', frame_step pipe_c3_ok enh_ex true 0 7 0 st_pipe = (Ok 0, s') /\
    st_log nat s' = (st_log nat st_pipe ++ [EvFrameError 0])%list /\
    st_written nat s' = (st_written nat st_pipe ++ [st_mem nat s' (st_next nat st_pipe)])%list /\
    ((forall m n l, untouched m n (pe_enhance pipe_c3_ok enh_ex 0 m n l)) ->
     (forall m n lo le lr, untouched m n (pe_get_final_image pipe_c3_ok 0 m n lo le lr)) ->
     st_written nat s' = (st_written nat st_pipe ++ [7])%list).
Proof.
  apply identity_failure_writes_original.
  - intros m n l. exists l. reflexivity.
  - intros m n lo le lr. exists ValueError. reflexivity.
Defined.

(** C4: when ffmpeg exits with a non-zero code, [main] copies the silent
    video to the output path with [shutil.copy2] and its [try] block ends
    with [return True]: the output then holds exactly the bytes of the
    silent video (whatever ffmpeg left there), so it exists and is
    non-empty whenever the silent video is, which an opened VideoWriter
    guarantees by writing its container header.  The hypotheses are those
    of the run reaching the remux: the silent video exists, the output
    directory can be created, and the copy itself succeeds. *)
Theorem remux_failure_copies {Frame} (E : PipeEnv Frame) (face outfile tmp : string)
    (rc : Z) (written : option bytes) (b : bytes) (s : St Frame) :
  st_fs Frame s !! tmp = Some b ->
  b <> [] ->
  tmp <> outfile ->
  pe_makedirs_ok E (pe_dirname E outfile) = true ->
  pe_ffmpeg E (st_fs Frame s) (ffmpeg_cmd tmp face outfile) = FfExit rc written ->
  rc <> 0%Z ->
  pe_copy_ok E outfile = true ->
  exists s', remux_stage E face outfile tmp s = (Ok true, s') /\
    st_fs Frame s' !! outfile = Some b /\ b <> [] /\
    st_fs Frame s' !! tmp = Some b.
Proof.
  intros Ht Hne Hdiff Hmk Hff Hrc Hcp.
  unfold remux_stage, path_exists, makedirs, run_ffmpeg, copy2, read_file, write_file,
    emit, bind, modify, get, ret, throw.
  rewrite Ht. rewrite bool_decide_true by eauto. cbn [negb].
  rewrite Hmk. cbn. rewrite Hff.
  destruct written as [w|]; cbn;
    rewrite (proj2 (Z.eqb_neq rc 0) Hrc); cbn;
    rewrite ?lookup_insert_ne by congruence; rewrite Ht; cbn;
    rewrite (bool_decide_false (tmp = outfile)) by exact Hdiff; rewrite Hcp; cbn;
    rewrite lookup_insert_eq, bool_decide_true by (eexists; reflexivity); cbn;
    (eexists; split; [reflexivity|]); cbn;
    rewrite lookup_insert_eq, ?lookup_insert_ne by congruence; auto.
Qed.

(** ffmpeg fails with exit code 1 and leaves nothing. *)
Definition pipe_c4 : PipeEnv nat :=
  pipe_mk enhance_id final_image_id [10] 1 (FfExit 1 None).

Definition st_c4 : St nat :=
  set_fs nat (<["/app/temp/silent.avi" := [Byte.x2a]]> (st_fs nat st_pipe)) st_pipe.

Lemma remux_failure_copies_witness :
  exists s', remux_stage pipe_c4 "/in.mp4" "/out/o.mp4" "/app/temp/silent.avi" st_c4 = (Ok true, s') /\
    st_fs nat s' !! "/out/o.mp4" = Some [Byte.x2a] /\ [Byte.x2a] <> [] /\
    st_fs nat s' !! "/app/temp/silent.avi" = Some [Byte.x2a].
Proof.
  apply (remux_failure_copies pipe_c4 "/in.mp4" "/out/o.mp4" "/app/temp/silent.avi" 1 None).
  - vm_compute. reflexivity.
  - discriminate.
  - vm_compute. discriminate.
  - reflexivity.
  - reflexivity.
  - discriminate.
  - reflexivity.
Defined.

(** ** Further properties of the code *)

(** *** Removal of temporary files *)

Lemma cleanup_one_fs {Frame} (ro : string -> bool) (p : string) (s : St Frame) :
  fst (cleanup_one ro p s) = Ok tt /\
  forall q, st_fs Frame (snd (cleanup_one ro p s)) !! q =
            if bool_decide (q = p) && ro p then None else st_fs Frame s !! q.
Proof.
  unfold cleanup_one, catch, bind, path_exists, os_remove, emit, modify, ret, throw.
  case_bool_decide as He; [destruct (ro p) eqn:Hr|]; cbn.
  all: split; [reflexivity|]; intros q; case_bool_decide as Hq; subst; cbn; rewrite ?Hr; cbn.
  all: rewrite ?lookup_delete_eq, ?lookup_delete_ne by congruence; auto.
  apply eq_None_not_Some in He. rewrite He. destruct (ro p); reflexivity.
Qed.

Lemma cleanup_files_one_fs {Frame} (ro : string -> bool) (p : string) (s : St Frame) :
  fst (cleanup_files_one ro p s) = Ok tt /\
  forall q, st_fs Frame (snd (cleanup_files_one ro p s)) !! q =
            if bool_decide (q = p /\ p <> "") && ro p then None else st_fs Frame s !! q.
Proof.
  unfold cleanup_files_one, catch, bind, path_exists, os_remove, emit, modify, ret, throw.
  destruct (decide (p = "")) as [Hpe|Hpe].
  { rewrite (bool_decide_false (p <> "")) by naive_solver. cbn.
    split; [reflexivity|]. intros q. rewrite bool_decide_false by naive_solver. reflexivity. }
  rewrite (bool_decide_true (p <> "")) by exact Hpe. cbn.
  case_bool_decide as He; [destruct (ro p) eqn:Hr|]; cbn.
  all: split; [reflexivity|]; intros q; case_bool_decide as Hq;
    [destruct Hq as [Hq _]; subst|]; cbn; rewrite ?Hr; cbn.
  all: rewrite ?lookup_delete_eq, ?lookup_delete_ne by naive_solver; auto.
  apply eq_None_not_Some in He. rewrite He. destruct (ro p); reflexivity.
Qed.

(** [cleanup_temp_files] never raises; afterwards exactly the listed
    paths whose [os.remove] succeeds are gone from the disk (whether or
    not they existed, and whatever duplicates the list holds); every
    other file is left as it was. *)
Theorem cleanup_temp_files_fs {Frame} (ro : string -> bool) (ps : list string) (s : St Frame) :
  fst (cleanup_temp_files ro ps s) = Ok tt /\
  forall q, st_fs Frame (snd (cleanup_temp_files ro ps s)) !! q =
            if bool_decide (q ∈ ps) && ro q then None else st_fs Frame s !! q.
Proof.
  revert s. induction ps as [|p ps IH]; intros s; cbn [cleanup_temp_files].
  - split; [reflexivity|]. intros q. rewrite bool_decide_false by set_solver. reflexivity.
  - destruct (cleanup_one_fs ro p s) as [Hok Hfs].
    unfold bind. destruct (cleanup_one ro p s) as [r s1] eqn:E1.
    cbn in Hok, Hfs. subst r. cbv beta iota. destruct (IH s1) as [Hok' Hfs']. split; [exact Hok'|].
    intros q. rewrite Hfs', Hfs.
    destruct (decide (q = p)) as [->|Hqp].
    + rewrite (bool_decide_true (p ∈ p :: ps)) by set_solver.
      rewrite (bool_decide_true (p = p)) by reflexivity.
      destruct (bool_decide (p ∈ ps)), (ro p); reflexivity.
    + rewrite (bool_decide_false (q = p)) by exact Hqp.
      destruct (decide (q ∈ ps)) as [Hin|Hin].
      * rewrite !bool_decide_true by set_solver. reflexivity.
      * rewrite !bool_decide_false by set_solver. reflexivity.
Qed.

(** [cleanup_files] of the handler: the same, except that the empty path
    is skipped ([if file_path and ...]), so a file named [""] is never
    removed. *)
Theorem cleanup_files_fs {Frame} (ro : string -> bool) (ps : list string) (s : St Frame) :
  fst (cleanup_files ro ps s) = Ok tt /\
  forall q, st_fs Frame (snd (cleanup_files ro ps s)) !! q =
            if bool_decide (q ∈ ps /\ q <> "") && ro q then None else st_fs Frame s !! q.
Proof.
  revert s. induction ps as [|p ps IH]; intros s; cbn [cleanup_files].
  - split; [reflexivity|]. intros q. rewrite bool_decide_false by set_solver. reflexivity.
  - destruct (cleanup_files_one_fs ro p s) as [Hok Hfs].
    unfold bind. destruct (cleanup_files_one ro p s) as [r s1] eqn:E1.
    cbn in Hok, Hfs. subst r. cbv beta iota. destruct (IH s1) as [Hok' Hfs']. split; [exact Hok'|].
    intros q. rewrite Hfs', Hfs.
    destruct (decide (q = "")) as [->|Hqe].
    + rewrite !bool_decide_false by naive_solver. reflexivity.
    + destruct (decide (q = p)) as [->|Hqp].
      * rewrite (bool_decide_true (p ∈ p :: ps /\ p <> "")) by set_solver.
        rewrite (bool_decide_true (p = p /\ p <> "")) by naive_solver.
        destruct (bool_decide (p ∈ ps /\ p <> "")), (ro p); reflexivity.
      * rewrite (bool_decide_false (q = p /\ p <> "")) by naive_solver.
        destruct (decide (q ∈ ps)) as [Hin|Hin].
        -- rewrite !bool_decide_true by set_solver. reflexivity.
        -- rewrite !bool_decide_false by set_solver. reflexivity.
Qed.

(** *** Download of the source video *)



(** *** Validation of the URL *)

(** [validate_video_url] never raises and touches no file.  It accepts a
    URL, with the message "URL hợp lệ", exactly when the HEAD request
    answers 200 and the [content-length] header, when present and
    non-empty, is an integer of at most [MAX_FILE_SIZE] bytes; the
    content type never causes a rejection. *)
Theorem validate_video_url_outcome {Frame} (B : Builtins) (J : JobEnv)
    (url : string) (s : St Frame) :
  st_fs Frame (snd (validate_video_url B J url s)) = st_fs Frame s /\
  exists ok msg, fst (validate_video_url B J url s) = Ok (ok, msg) /\
  (ok = true <->
     msg = "URL hợp lệ" /\
     exists hs, je_head J url = HeadResp 200 hs /\
       forall cl, header_get hs "content-length" = Some cl -> cl <> "" ->
         exists z, b_int_of_str B cl = Some z /\ (z <= MAX_FILE_SIZE)%Z).
Proof.
  unfold validate_video_url, catch, bind, emit, modify, ret, throw.
  destruct (je_head J url) as [e|status hs] eqn:Hh; cbn.
  - split; [destruct e; reflexivity|].
    destruct e; eexists _, _; (split; [reflexivity|]); split; try discriminate;
      intros [_ [hs' [? _]]]; discriminate.
  - destruct (status =? 200)%Z eqn:Hst; cbn.
    2:{ split; [reflexivity|]. eexists _, _; split; [reflexivity|]. split; [discriminate|].
        intros [_ [hs' [[= ->] _]]]. discriminate. }
    apply Z.eqb_eq in Hst. subst status.
    destruct (header_get hs "content-length") as [cl|] eqn:Hcl; cbn.
    2:{ split; [reflexivity|]. eexists _, _; split; [reflexivity|]. split; [|reflexivity].
        intros _. split; [reflexivity|]. exists hs. split; [reflexivity|].
        intros cl' Hcl'. congruence. }
    destruct (bool_decide (cl <> "")) eqn:Hne; cbn.
    2:{ apply bool_decide_eq_false, dec_stable in Hne. subst cl.
        split; [reflexivity|]. eexists _, _; split; [reflexivity|]. split; [|reflexivity].
        intros _. split; [reflexivity|]. exists hs. split; [reflexivity|].
        intros cl' Hcl' Hne'. congruence. }
    apply bool_decide_eq_true in Hne.
    destruct (b_int_of_str B cl) as [z|] eqn:Hz; cbn.
    2:{ split; [reflexivity|]. eexists _, _; split; [reflexivity|]. split; [discriminate|].
        intros [_ [hs' [[= <-] Hc]]]. destruct (Hc cl Hcl Hne) as [z [Hz' _]]. congruence. }
    destruct (z >? MAX_FILE_SIZE)%Z eqn:Hmax; cbn.
    + split; [reflexivity|]. eexists _, _; split; [reflexivity|]. split; [discriminate|].
      intros [_ [hs' [[= <-] Hc]]]. destruct (Hc cl Hcl Hne) as [z' [Hz' Hle]].
      rewrite Hz in Hz'. injection Hz' as <-. lia.
    + split; [reflexivity|]. eexists _, _; split; [reflexivity|]. split; [|reflexivity].
      intros _. split; [reflexivity|]. exists hs. split; [reflexivity|].
      intros cl' Hcl' _. rewrite Hcl in Hcl'. injection Hcl' as <-. exists z. split; [exact Hz|lia].
Qed.

(** *** The inference subprocess *)

(** Writing the files a killed subprocess left changes no other file. *)
Lemma write_files_ok {Frame} (files : list (string * bytes)) (s : St Frame) :
  exists s', write_files files s = (Ok tt, s') /\ st_log Frame s' = st_log Frame s /\
    forall q, q ∉ files.*1 -> st_fs Frame s' !! q = st_fs Frame s !! q.
Proof.
  revert s. induction files as [|[p b] files IH]; intros s.
  - exists s. split; [reflexivity|]. auto.
  - cbn [write_files]. unfold bind, write_file, modify. cbv beta iota.
    destruct (IH (set_fs Frame (<[p:=b]> (st_fs Frame s)) s)) as (s' & H & Hl & Hq).
    rewrite H. exists s'. split; [reflexivity|]. split; [exact Hl|].
    intros q Hnq. rewrite Hq by set_solver. cbn. apply lookup_insert_ne. set_solver.
Qed.

(** [run_face_enhancement] never raises.  It reports success, with the
    message "Thành công", exactly when the input file exists, the output
    directory can be created, the subprocess exits with code 0 and the
    output file it leaves (what the process wrote, or the file already at
    the output path) is non-empty; the output file then holds those bytes. *)
Theorem run_face_enhancement_outcome {Frame} (B : Builtins) (J : JobEnv)
    (i o e : string) (u : pyval) (w : pyfloat) (s : St Frame) :
  exists ok msg, fst (run_face_enhancement B J i o e u w s) = Ok (ok, msg) /\
  (ok = true <->
     msg = "Thành công" /\ is_Some (st_fs Frame s !! i) /\
     je_makedirs_ok J (je_dirname J o) = true /\
     exists stderr written b,
       je_popen J (inference_cmd B i o e u w) = PopenExit 0 stderr written /\
       match written with Some b' => Some b' | None => st_fs Frame s !! o end = Some b /\
       b <> [] /\
       st_fs Frame (snd (run_face_enhancement B J i o e u w s)) !! o = Some b).
Proof.
  unfold run_face_enhancement. remember (inference_cmd B i o e u w) as cmd eqn:Hcmd.
  unfold catch, bind, path_exists, emit, modify, write_file, getsize, ret, throw.
  case_bool_decide as Hi; cbn.
  2:{ eexists _, _; split; [reflexivity|]. split; [discriminate|]. intros (_ & H & _). contradiction. }
  destruct (je_makedirs_ok J (je_dirname J o)) eqn:Hd; cbn.
  2:{ eexists _, _; split; [reflexivity|]. split; [discriminate|]. intros (_ & _ & H & _). discriminate. }
  destruct (je_popen J cmd) as [x|fl|rc stderr written] eqn:Hp; cbn.
  2: match goal with |- context [write_files ?f ?s0] =>
       destruct (write_files_ok f s0) as (s2 & -> & _) end; cbn.
  1,2: eexists _, _; split; [reflexivity|]; split; [discriminate|];
       intros (_ & _ & _ & ? & ? & ? & H & _); discriminate.
  destruct (rc =? 0)%Z eqn:Hrc.
  2:{ destruct written; cbn;
      eexists _, _; (split; [reflexivity|]); (split; [discriminate|]);
      intros (_ & _ & _ & ? & ? & ? & [= Hrc' _ _] & _); subst; discriminate. }
  apply Z.eqb_eq in Hrc. subst rc.
  destruct written as [b|]; cbn.
  - rewrite lookup_insert_eq. cbn. rewrite ?bool_decide_true by eauto. cbn.
    rewrite ?lookup_insert_eq. cbn.
    destruct b as [|x b]; cbn.
    + eexists _, _; split; [reflexivity|]. split; [discriminate|].
      intros (_ & _ & _ & ? & ? & ? & [= _ <-] & [= <-] & Hne & _). contradiction.
    + eexists _, _; split; [reflexivity|]. split; [|reflexivity].
      intros _. split; [reflexivity|]. split; [exact Hi|]. split; [reflexivity|].
      exists stderr, (Some (x :: b)), (x :: b). split; [reflexivity|].
      split; [reflexivity|]. split; [discriminate|]. apply lookup_insert_eq.
  - destruct (st_fs Frame s !! o) as [b|] eqn:Ho; cbn.
    + rewrite ?bool_decide_true by eauto. cbn. rewrite ?Ho. cbn.
      destruct b as [|x b]; cbn.
      * eexists _, _; split; [reflexivity|]. split; [discriminate|].
        intros (_ & _ & _ & ? & ? & ? & [= _ <-] & Hb & Hne & _). cbn in Hb.
        injection Hb as <-. contradiction.
      * eexists _, _; split; [reflexivity|]. split; [|reflexivity].
        intros _. split; [reflexivity|]. split; [exact Hi|]. split; [reflexivity|].
        exists stderr, None, (x :: b). split; [reflexivity|].
        split; [reflexivity|]. split; [discriminate|]. exact Ho.
    + rewrite ?bool_decide_false by (intros [? ?]; discriminate). cbn.
      eexists _, _; split; [reflexivity|]. split; [discriminate|].
      intros (_ & _ & _ & ? & ? & ? & [= _ <-] & Hb & _). cbn in Hb. congruence.
Qed.

(** The inference subprocess is never started when the input file is
    missing or the output directory cannot be created: the call then
    returns [(False, "Lỗi trong quá trình cải thiện: ...")] and leaves the
    whole state (disk, log) as it was. *)
Theorem run_face_enhancement_needs_input {Frame} (B : Builtins) (J : JobEnv)
    (i o e : string) (u : pyval) (w : pyfloat) (s : St Frame) :
  st_fs Frame s !! i = None \/ je_makedirs_ok J (je_dirname J o) = false ->
  exists exc, run_face_enhancement B J i o e u w s =
    (Ok (false, "Lỗi trong quá trình cải thiện: " ++ b_exc_str B exc), s).
Proof.
  intros H. unfold run_face_enhancement, catch, bind, path_exists, ret, throw.
  destruct H as [H|H].
  - rewrite H, bool_decide_false by (intros [? ?]; discriminate). cbn. eauto.
  - case_bool_decide; cbn; [rewrite H|]; cbn; eauto.
Qed.

(** A timeout of the inference process is reported as
    [(False, "Timeout sau 1800s")], whatever the killed process had
    written: its output is not checked, and no file changes but those the
    killed process left. *)
Theorem run_face_enhancement_timeout {Frame} (B : Builtins) (J : JobEnv)
    (i o e : string) (u : pyval) (w : pyfloat) (s : St Frame)
    (files_left : list (string * bytes)) :
  is_Some (st_fs Frame s !! i) ->
  je_makedirs_ok J (je_dirname J o) = true ->
  je_popen J (inference_cmd B i o e u w) = PopenTimeout files_left ->
  fst (run_face_enhancement B J i o e u w s) =
    Ok (false, "Timeout sau " ++ b_str B (PInt TIMEOUT_SECONDS) ++ "s") /\
  (forall q, q ∉ files_left.*1 ->
     st_fs Frame (snd (run_face_enhancement B J i o e u w s)) !! q = st_fs Frame s !! q).
Proof.
  intros Hi Hd Hp. unfold run_face_enhancement. rewrite Hp.
  unfold catch, bind, path_exists, emit, modify, ret.
  rewrite bool_decide_true by exact Hi. cbn. rewrite Hd. cbn.
  match goal with |- context [write_files ?f ?s0] =>
    destruct (write_files_ok f s0) as (s2 & -> & _ & Hq) end.
  cbn. split; [reflexivity|]. exact Hq.
Qed.

(** *** Building the enhancer *)

(** [make_enhancer] touches no state.  It succeeds exactly for the seven
    names of the handler's [valid_enhancers] (the argparse choices), and
    for "GFPGAN" only when its model file exists; otherwise it raises
    [ValueError] for an unknown name or [FileNotFoundError] for the
    missing GFPGAN model.  No other model file is checked. *)
Theorem make_enhancer_outcome {Frame} (args : Args) (s : St Frame) :
  snd (make_enhancer args s) = s /\
  match fst (make_enhancer args s) with
  | Ok _ => a_enhancer args ∈ valid_enhancers /\
            (a_enhancer args = "GFPGAN" -> is_Some (st_fs Frame s !! gfpgan_model_path))
  | Raise exc => ((a_enhancer args ∉ valid_enhancers) /\ exc = ValueError) \/
                 (a_enhancer args = "GFPGAN" /\ st_fs Frame s !! gfpgan_model_path = None /\
                  exc = FileNotFoundError)
  end.
Proof.
  destruct args as [e ew gt fid outf]; cbn [a_enhancer].
  unfold make_enhancer, bind, path_exists, ret, throw, valid_enhancers. cbn [a_enhancer].
  repeat (case_bool_decide; [subst; cbn|]).
  all: cbn; split; [reflexivity|].
  all: try (split; [set_solver|]; solve [auto | discriminate]).
  - right. split; [reflexivity|]. split; [|reflexivity].
    apply eq_None_not_Some. assumption.
  - left. split; [|reflexivity]. rewrite !elem_of_cons, elem_of_nil. tauto.
Qed.

(** *** The frame loop *)

(** The loop never raises; [processed_frames] grows by at most one per
    frame written, so it never exceeds the number of frames written,
    [min n (length stream)]. *)
Theorem frame_loop_processed_bound {Frame} (E : PipeEnv Frame) (enh : enhancer_id)
    (fm : bool) (n idx : nat) (stream : list Frame) (p : nat) (s : St Frame) :
  exists p' s' ws, frame_loop E enh fm n idx stream p s = (Ok p', s') /\
    st_written Frame s' = (st_written Frame s ++ ws)%list /\
    length ws = Nat.min n (length stream) /\
    p <= p' <= p + length ws.
Proof.
  revert idx stream p s. induction n as [|n IH]; intros idx stream p s.
  - exists p, s, []. rewrite app_nil_r. cbn. split; [reflexivity|]. split; [reflexivity|]. lia.
  - destruct stream as [|f rest].
    + exists p, s, []. rewrite app_nil_r. cbn. split; [reflexivity|]. split; [reflexivity|]. lia.
    + destruct (frame_step_shape E enh fm idx f p s) as (p1 & x & s1 & H1 & Hw1 & Hp1).
      destruct (IH (S idx) rest p1 s1) as (p' & s' & ws & H2 & Hw2 & Hl2 & Hb2).
      exists p', s', (x :: ws). cbn [frame_loop]. unfold bind at 1. rewrite H1.
      split; [exact H2|]. split; [rewrite Hw2, Hw1, <- app_assoc; reflexivity|].
      cbn [length]. split; lia.
Qed.

(** *** The mock models of the source *)

(** One iteration with [MockEnhancer.enhance] (returns the frame it is
    given) and [MockFaceID.get_final_image] (returns [enhanced]). *)
Lemma frame_step_mock {Frame} (E : PipeEnv Frame) (enh : enhancer_id) (fm : bool)
    (idx : nat) (f : Frame) (p : nat) (s : St Frame) :
  (forall j m k l, pe_enhance E enh j m k l = (m, k, Ok l)) ->
  (fm = true -> forall j m k lo le lr, pe_get_final_image E j m k lo le lr = (m, k, Ok le)) ->
  exists s', frame_step E enh fm idx f p s = (Ok (S p), s') /\
    st_written Frame s' = (st_written Frame s ++ [f])%list.
Proof.
  intros He Hg.
  unfold frame_step, alloc, load, call_enhance, call_get_final_image, out_write,
    catch, bind, modify, ret.
  cbn [st_mem st_next set_mem fst snd]. rewrite He.
  destruct fm; cbn; [rewrite Hg by reflexivity; cbn|];
    (eexists; split; [reflexivity|]); cbn;
    rewrite (proj2 (Nat.eqb_neq _ _)) by lia; rewrite Nat.eqb_refl; reflexivity.
Qed.

(** With the mock models of the source ([MockEnhancer.enhance] returns
    its frame, [MockFaceID.get_final_image] returns [enhanced]), the loop
    writes exactly the first [min n (length stream)] frames read, in order
    and unchanged, and counts every one of them. *)
Theorem frame_loop_mock_models {Frame} (E : PipeEnv Frame) (enh : enhancer_id) (fm : bool)
    (n idx : nat) (stream : list Frame) (p : nat) (s : St Frame) :
  (forall j m k l, pe_enhance E enh j m k l = (m, k, Ok l)) ->
  (fm = true -> forall j m k lo le lr, pe_get_final_image E j m k lo le lr = (m, k, Ok le)) ->
  exists s', frame_loop E enh fm n idx stream p s = (Ok (p + Nat.min n (length stream)), s') /\
    st_written Frame s' = (st_written Frame s ++ take n stream)%list.
Proof.
  intros He Hg. revert idx stream p s. induction n as [|n IH]; intros idx stream p s.
  - exists s. cbn. rewrite Nat.add_0_r, app_nil_r. split; reflexivity.
  - destruct stream as [|f rest].
    + exists s. cbn. rewrite Nat.add_0_r, app_nil_r. split; reflexivity.
    + destruct (frame_step_mock E enh fm idx f p s He Hg) as (s1 & H1 & Hw1).
      destruct (IH (S idx) rest (S p) s1) as (s' & H2 & Hw2).
      exists s'. cbn [frame_loop]. unfold bind at 1. rewrite H1, H2.
      split; [f_equal; f_equal; cbn; lia|].
      rewrite Hw2, Hw1, <- app_assoc. reflexivity.
Qed.

Lemma frame_loop_mock_models_witness :
  exists s', frame_loop pipe_ok enh_ex true 3 0 [10; 11; 12] 0 st_pipe
               = (Ok (0 + Nat.min 3 (length [10; 11; 12])), s') /\
    st_written nat s' = (st_written nat st_pipe ++ take 3 [10; 11; 12])%list.
Proof.
  apply (frame_loop_mock_models pipe_ok enh_ex true 3 0 [10; 11; 12] 0 st_pipe).
  - intros j m k l. reflexivity.
  - intros _ j m k lo le lr. reflexivity.
Defined.

(** *** What [main] leaves on disk *)

Section StatePost.
Context {Frame : Type}.
Local Abbreviation M := (M Frame).

(** [spost m Q]: whenever [m] returns [a] normally, [Q a] holds of the
    state it returns. *)
Definition spost {A} (m : M A) (Q : A -> St Frame -> Prop) : Prop :=
  forall s, match m s with (Ok a, s') => Q a s' | (Raise _, _) => True end.

Lemma spost_bind {A C} (m : M A) (k : A -> M C) Q :
  (forall a, spost (k a) Q) -> spost (bind m k) Q.
Proof.
  intros Hk s. unfold bind. destruct (m s) as [[a|e] s']; [apply Hk|exact I].
Qed.

Lemma spost_bind_post {A C} (m : M A) (k : A -> M C) P Q :
  post m P -> (forall a, P a -> spost (k a) Q) -> spost (bind m k) Q.
Proof.
  intros Hm Hk s. specialize (Hm s). unfold bind.
  destruct (m s) as [[a|e] s']; [apply Hk, Hm|exact I].
Qed.

Lemma spost_throw {A} e Q : spost (@throw Frame A e) Q.
Proof. intros s. exact I. Qed.

End StatePost.

(** The output path [main] works with: [args.outfile], or the default
    built from the input's base name. *)
Definition outfile_of {Frame} (E : PipeEnv Frame) (args : Args) : string :=
  match a_outfile args with
  | Some o => o
  | None =>
      let '(name, ext) := pe_splitext E (pe_basename E (a_face args)) in
      "/app/outputs" ++ "/" ++ name ++ "_enhanced_" ++ a_enhancer args ++ ext
  end.

Lemma remux_stage_output {Frame} (E : PipeEnv Frame) (face outfile tmp : string) :
  spost (remux_stage E face outfile tmp) (fun _ s => is_Some (st_fs Frame s !! outfile)).
Proof.
  unfold remux_stage. apply spost_bind; intros ex.
  destruct (negb ex); [apply spost_throw|].
  do 3 (apply spost_bind; intros ?).
  intros s. unfold bind, path_exists. case_bool_decide; cbn; [assumption|exact I].
Qed.

Lemma main_body_output {Frame} (E : PipeEnv Frame) (args : Args) :
  spost (main_body E args) (fun _ s => is_Some (st_fs Frame s !! outfile_of E args)).
Proof.
  unfold main_body. apply spost_bind; intros isf.
  destruct (negb isf); [apply spost_throw|].
  apply (spost_bind_post _ _ (fun o => o = outfile_of E args)).
  { unfold outfile_of. destruct (a_outfile args); [apply post_ret; reflexivity|].
    destruct (pe_splitext E (pe_basename E (a_face args))).
    apply post_bind; intros _. apply post_ret. reflexivity. }
  intros o ->. cbv zeta.
  do 3 (apply spost_bind; intros ?).
  match goal with d : (Q * Z * Z * Z)%type |- _ => destruct d as [[[fps w] h] fc] end.
  do 2 (apply spost_bind; intros ?).
  unfold enhance_and_remux. apply spost_bind; intros [vs [c|]]; [|apply spost_throw].
  do 4 (apply spost_bind; intros ?). apply remux_stage_output.
Qed.

(** [cleanup_temp_files] does not raise and leaves every unlisted path
    as it was. *)
Lemma cleanup_temp_files_frame {Frame} (ro : string -> bool) (ps : list string)
    (s : St Frame) (q : string) :
  q ∉ ps ->
  fst (cleanup_temp_files ro ps s) = Ok tt /\
  st_fs Frame (snd (cleanup_temp_files ro ps s)) !! q = st_fs Frame s !! q.
Proof.
  revert s. induction ps as [|p ps IH]; intros s Hq; [split; reflexivity|].
  destruct (cleanup_one_spec ro p s) as (s1 & H1 & _ & Hf1).
  cbn [cleanup_temp_files]. unfold bind. rewrite H1.
  destruct (IH s1) as [Hok Hfs]; [set_solver|].
  split; [exact Hok|]. rewrite Hfs. apply Hf1. set_solver.
Qed.

(** When [main] returns [True], its output file exists on disk after the
    cleanup, unless the output path is the silent intermediate itself
    (which the cleanup then removes). *)
Theorem main_true_output_exists {Frame} (E : PipeEnv Frame) (args : Args) (s s' : St Frame) :
  main E args s = (Ok true, s') ->
  outfile_of E args <> temp_video_file_of E ->
  is_Some (st_fs Frame s' !! outfile_of E args).
Proof.
  intros H Hne. unfold main, bind at 1, modify in H. cbv beta iota in H.
  pose proof (main_body_output E args (set_temps Frame [] s)) as Hout.
  pose proof (main_body_temps E args (set_temps Frame [] s) eq_refl) as Ht.
  unfold bind, catch, get, ret in H.
  destruct (main_body E args (set_temps Frame [] s)) as [[b|e] s1].
  - assert (Hq : outfile_of E args ∉ st_temps Frame s1).
    { destruct Ht as [-> | ->]; set_solver. }
    destruct (cleanup_temp_files_frame (pe_remove_ok E) (st_temps Frame s1) s1 _ Hq) as [Hok Hfs].
    destruct (cleanup_temp_files (pe_remove_ok E) (st_temps Frame s1) s1) as [r2 s2].
    cbn in Hok, Hfs. subst r2. injection H as -> <-. rewrite Hfs. exact Hout.
  - destruct (cleanup_temp_files (pe_remove_ok E) (st_temps Frame s1) s1) as [[[]|e'] s2];
      discriminate.
Qed.

Lemma main_true_output_exists_witness :
  exists s', main pipe_ok args_ex st_pipe = (Ok true, s') /\
    is_Some (st_fs nat s' !! outfile_of pipe_ok args_ex).
Proof.
  eexists. split; [vm_compute; reflexivity|].
  apply (main_true_output_exists pipe_ok args_ex st_pipe); [vm_compute; reflexivity|].
  vm_compute. discriminate.
Defined.

(** *** What a successful job returns *)

Lemma bind_raise {Frame A C} (m : M Frame A) (k : A -> M Frame C) (s s' : St Frame) e :
  m s = (Raise e, s') -> bind m k s = (Raise e, s').
Proof. intros H. unfold bind. rewrite H. reflexivity. Qed.

(** Symbolic execution of a hypothesis [m s = (Ok _, _)]: follow every
    bind, split every [match] and [if], drop the paths that raise. *)
Ltac run_ok H :=
  repeat (cbv beta iota zeta in H;
    match type of H with
    | bind ?m ?k ?s = (Ok _, _) =>
        let a := fresh "a" in let s1 := fresh "s" in let Hm := fresh "Hm" in
        let e := fresh "e" in
        destruct (m s) as [[a|e] s1] eqn:Hm;
        [rewrite (bind_ok m k s s1 a Hm) in H
        |rewrite (bind_raise m k s s1 e Hm) in H; discriminate H]
    | throw _ _ = (Ok _, _) => discriminate H
    | (match ?x with _ => _ end) _ = (Ok _, _) => destruct x eqn:?
    end).

Lemma named_temp_file_ok {Frame} (J : JobEnv) (n : nat) (s s' : St Frame) (p : string) :
  named_temp_file J n s = (Ok p, s') ->
  je_tempfile J n = Some p /\ st_fs Frame s' = <[p := []]> (st_fs Frame s).
Proof.
  unfold named_temp_file. destruct (je_tempfile J n) as [p'|]; [|discriminate].
  intros [= <- <-]. split; reflexivity.
Qed.

(** [download_video B J url p] writes no file but [p]. *)
Lemma download_video_frame {Frame} (B : Builtins) (J : JobEnv) (url p q : string) (s : St Frame) :
  q <> p -> st_fs Frame (snd (download_video B J url p s)) !! q = st_fs Frame s !! q.
Proof.
  intros Hq. unfold download_video, catch, bind, emit, modify, write_file, ret, throw, getsize.
  assert (Hw : forall (s1 : St Frame) fs cs,
    write_chunks p cs (set_fs Frame (<[p:=[]]> fs) s1) =
    (Ok tt, set_fs Frame (<[p := concat cs]> fs) s1)).
  { intros s1 fs cs. rewrite (write_chunks_appends _ _ _ []) by apply lookup_insert_eq.
    destruct s1. cbn. rewrite insert_insert_eq. reflexivity. }
  destruct (je_get J url) as [e|status hs chunks err]; cbn; [reflexivity|].
  destruct ((400 <=? status)%Z && (status <? 600)%Z); cbn; [reflexivity|].
  destruct (header_get hs "content-length") as [cl|];
    [destruct (b_int_of_str B cl)|]; cbn; try reflexivity.
  all: rewrite Hw; destruct err; cbn; [rewrite lookup_insert_ne by congruence; reflexivity|].
  all: rewrite lookup_insert_eq; cbn; destruct (Z.of_nat _ =? 0)%Z; cbn;
    rewrite lookup_insert_ne by congruence; reflexivity.
Qed.

(** A successful [run_face_enhancement]: the subprocess exited with 0 and
    the output file holds non-empty bytes, those it wrote or those
    already there. *)
Lemma run_face_enhancement_success {Frame} (B : Builtins) (J : JobEnv)
    (i o e : string) (u : pyval) (w : pyfloat) (s s' : St Frame) (msg : string) :
  run_face_enhancement B J i o e u w s = (Ok (true, msg), s') ->
  exists stderr written b,
    je_popen J (inference_cmd B i o e u w) = PopenExit 0 stderr written /\
    match written with Some b' => Some b' | None => st_fs Frame s !! o end = Some b /\
    b <> [] /\ st_fs Frame s' !! o = Some b.
Proof.
  intros H. unfold run_face_enhancement in H.
  remember (inference_cmd B i o e u w) as cmd eqn:Hcmd.
  unfold catch, bind, path_exists, emit, modify, write_file, getsize, ret, throw in H.
  destruct (bool_decide _); cbn in H; [|discriminate].
  destruct (je_makedirs_ok J (je_dirname J o)); cbn in H; [|discriminate].
  destruct (je_popen J cmd) as [x|fl|rc stderr written]; cbn in H;
    try (match type of H with context [write_files ?f ?s0] =>
           destruct (write_files_ok f s0) as (? & Hw' & _); rewrite Hw' in H; cbn in H end);
    try discriminate.
  destruct (rc =? 0)%Z eqn:Hrc; [|destruct written; cbn in H; discriminate].
  apply Z.eqb_eq in Hrc. subst rc.
  exists stderr, written.
  destruct written as [b|]; cbn in H.
  - rewrite ?lookup_insert_eq in H. cbn in H. rewrite ?lookup_insert_eq in H. cbn in H.
    destruct b as [|x b]; cbn in H; [discriminate|]. injection H as <- <-. exists (x :: b).
    split; [reflexivity|]. split; [reflexivity|]. split; [discriminate|]. apply lookup_insert_eq.
  - destruct (st_fs Frame s !! o) as [b|] eqn:Ho; cbn in H; [|discriminate].
    rewrite ?Ho in H. cbn in H.
    destruct b as [|x b]; cbn in H; [discriminate|]. injection H as <- <-. exists (x :: b).
    split; [reflexivity|]. split; [reflexivity|]. split; [discriminate|]. exact Ho.
Qed.

Lemma package_output_success {Frame} (B : Builtins) (o e : string) (u : pyval) (w : pyfloat)
    (s s' : St Frame) (d : pydict) :
  package_output B o e u w s = (Ok d, s') -> is_success d = true ->
  exists b, st_fs Frame s !! o = Some b /\ (Z.of_nat (length b) <= INLINE_LIMIT)%Z /\
    d = success_payload B b e u w.
Proof.
  unfold package_output, catch, bind, getsize, read_file, ret.
  destruct (st_fs Frame s !! o) as [b|] eqn:Ho; cbn.
  - destruct (Z.of_nat (length b) <=? INLINE_LIMIT)%Z eqn:Hle; cbn.
    + rewrite Ho. intros [= <- _] _. exists b. split; [reflexivity|]. split; [lia|]. reflexivity.
    + intros [= <- _] Hs. cbn in Hs. discriminate Hs.
  - intros [= <- _] Hs. cbn in Hs. discriminate Hs.
Qed.

Lemma is_success_err (msg : string) : is_success (err msg) = false.
Proof. reflexivity. Qed.

(** A success payload of the handler is exactly the file the inference
    subprocess wrote at the second temporary path: it exited with code 0,
    wrote non-empty bytes [b] of at most [INLINE_LIMIT] bytes, and the
    payload carries [b] base64-encoded with its size; the enhancer name,
    [use_faceid] and the weight [w] passed to the subprocess and echoed in
    the payload are those of the job, [w] being [float()] of the job's
    [enhancer_w] (0.5 when absent).  (The temporary
    file names are assumed distinct, as NamedTemporaryFile guarantees;
    an output the subprocess did not write is the empty temporary file,
    which is rejected.) *)
Theorem handler_success_is_inference_output {Frame} (B : Builtins) (J : JobEnv)
    (job : pydict) (s s' : St Frame) (d : pydict) :
  (forall p0 p1, je_tempfile J 0 = Some p0 -> je_tempfile J 1 = Some p1 -> p0 <> p1) ->
  handler B J job s = (Ok d, s') -> is_success d = true ->
  exists p0 p1 e_name use_faceid w stderr b,
    je_tempfile J 0 = Some p0 /\ je_tempfile J 1 = Some p1 /\
    je_popen J (inference_cmd B p0 p1 e_name use_faceid w) = PopenExit 0 stderr (Some b) /\
    b <> [] /\ (Z.of_nat (length b) <= INLINE_LIMIT)%Z /\
    d = success_payload B b e_name use_faceid w /\
    e_name ∈ valid_enhancers /\ in_unit w = true /\
    exists input, dict_get job "input" (PDict []) = PDict input /\
      dict_get input "enhancer" (PStr "GFPGAN") = PStr e_name /\
      use_faceid = dict_get input "use_faceid" (PBool true) /\
      float_of B (dict_get input "enhancer_w" (PFloat (Fin (1#2)))) = Some w.
Proof.
  intros Hdist H Hs. unfold handler, bind at 1, modify in H. cbv beta iota in H.
  unfold bind at 1, catch in H.
  destruct (handler_body B J job (set_temps Frame [] s)) as [[d1|e1] s1] eqn:Hb.
  2:{ unfold bind, get, ret in H.
      destruct (cleanup_files_ok (je_remove_ok J) (st_temps Frame s1) s1) as [s2 Hc].
      rewrite Hc in H. injection H as <- _. rewrite is_success_err in Hs. discriminate. }
  unfold bind, get, ret in H.
  destruct (cleanup_files_ok (je_remove_ok J) (st_temps Frame s1) s1) as [s2 Hc].
  rewrite Hc in H. injection H as <- _. clear Hc.
  unfold handler_body in Hb. run_ok Hb.
  all: try (unfold ret in Hb; injection Hb as <- _; rewrite is_success_err in Hs; discriminate).
  destruct b0; [|discriminate Heqb4].
  apply named_temp_file_ok in Hm1 as [Ht0 Hf1]. apply named_temp_file_ok in Hm2 as [Ht1 Hf2].
  pose proof (Hdist a1 a2 Ht0 Ht1) as Hne.
  pose proof (download_video_frame B J (url_of B (dict_get d "video_url" PNone)) a1 a2 s7
                (not_eq_sym Hne)) as Hf3.
  rewrite Hm3 in Hf3. cbn [snd] in Hf3. rewrite Hf2, lookup_insert_eq in Hf3.
  apply run_face_enhancement_success in Hm4 as (stderr & written & b' & Hp & Hw & Hne' & Hf4).
  apply package_output_success in Hb as (b'' & Hf5 & Hle & ->); [|exact Hs].
  rewrite Hf4 in Hf5. injection Hf5 as <-.
  destruct written as [bw|]; [injection Hw as <-|rewrite Hf3 in Hw; injection Hw as <-; contradiction].
  exists a1, a2, s3, (dict_get d "use_faceid" (PBool true)), a, stderr, bw.
  do 5 (split; [assumption|]). split; [reflexivity|].
  split; [apply bool_decide_eq_true_1 in Heqb0; exact Heqb0|].
  split; [apply negb_false_iff in Heqb1; exact Heqb1|].
  exists d. split; [first [exact Heqp | reflexivity]|].
  split; [first [exact Heqp0 | reflexivity]|]. split; [reflexivity|].
  match goal with H : py_float B ?v _ = (Ok a, _) |- _ =>
    rewrite py_float_float_of in H; destruct (float_of B v);
    [injection H as <- _; reflexivity|discriminate H] end.
Qed.

Lemma handler_success_is_inference_output_witness :
  exists d s', handler builtins_ex jobenv_ex job_ok st_empty = (Ok d, s') /\
  is_success d = true /\
  exists p0 p1 e_name use_faceid w stderr b,
    je_tempfile jobenv_ex 0 = Some p0 /\ je_tempfile jobenv_ex 1 = Some p1 /\
    je_popen jobenv_ex (inference_cmd builtins_ex p0 p1 e_name use_faceid w)
      = PopenExit 0 stderr (Some b) /\
    b <> [] /\ (Z.of_nat (length b) <= INLINE_LIMIT)%Z /\
    d = success_payload builtins_ex b e_name use_faceid w /\
    e_name ∈ valid_enhancers /\ in_unit w = true /\
    exists input, dict_get job_ok "input" (PDict []) = PDict input /\
      dict_get input "enhancer" (PStr "GFPGAN") = PStr e_name /\
      use_faceid = dict_get input "use_faceid" (PBool true) /\
      float_of builtins_ex (dict_get input "enhancer_w" (PFloat (Fin (1#2)))) = Some w.
Proof.
  eexists _, _. split; [vm_compute; reflexivity|]. split; [vm_compute; reflexivity|].
  eapply (handler_success_is_inference_output builtins_ex jobenv_ex job_ok st_empty).
  - intros p0 p1 H0 H1. vm_compute in H0, H1. congruence.
  - vm_compute. reflexivity.
  - vm_compute. reflexivity.
Defined.

(** *** Witnesses for the inference subprocess *)

Lemma run_face_enhancement_needs_input_witness :
  (st_fs unit st_empty !! "/tmp/in.mp4" = None \/
   je_makedirs_ok jobenv_ex (je_dirname jobenv_ex "/tmp/out.mp4") = false) /\
  exists exc, run_face_enhancement builtins_ex jobenv_ex "/tmp/in.mp4" "/tmp/out.mp4" "GFPGAN"
                (PBool true) (Fin (1#2)) st_empty =
    (Ok (false, "Lỗi trong quá trình cải thiện: " ++ b_exc_str builtins_ex exc), st_empty).
Proof.
  split; [left; reflexivity|].
  apply run_face_enhancement_needs_input. left. reflexivity.
Defined.

(** A job environment whose inference subprocess times out. *)
Definition jobenv_timeout : JobEnv := {|
  je_head := je_head jobenv_ex;
  je_get := je_get jobenv_ex;
  je_tempfile := je_tempfile jobenv_ex;
  je_dirname := je_dirname jobenv_ex;
  je_makedirs_ok := je_makedirs_ok jobenv_ex;
  je_popen := fun _ => PopenTimeout [("/tmp/out.mp4", [Byte.x03]);
                                     ("/app/temp/enhanced_video_no_audio_9.avi", [Byte.x04])];
  je_remove_ok := je_remove_ok jobenv_ex |}.

Definition st_input : St unit := set_fs unit (<["/tmp/in.mp4" := [Byte.x01]]> ∅) st_empty.

Lemma run_face_enhancement_timeout_witness :
  is_Some (st_fs unit st_input !! "/tmp/in.mp4") /\
  je_makedirs_ok jobenv_timeout (je_dirname jobenv_timeout "/tmp/out.mp4") = true /\
  je_popen jobenv_timeout (inference_cmd builtins_ex "/tmp/in.mp4" "/tmp/out.mp4" "GFPGAN"
                             (PBool true) (Fin (1#2))) =
    PopenTimeout [("/tmp/out.mp4", [Byte.x03]);
                  ("/app/temp/enhanced_video_no_audio_9.avi", [Byte.x04])] /\
  fst (run_face_enhancement builtins_ex jobenv_timeout "/tmp/in.mp4" "/tmp/out.mp4" "GFPGAN"
         (PBool true) (Fin (1#2)) st_input) =
    Ok (false, "Timeout sau " ++ b_str builtins_ex (PInt TIMEOUT_SECONDS) ++ "s") /\
  (forall q, q ∉ [("/tmp/out.mp4", [Byte.x03]);
                  ("/app/temp/enhanced_video_no_audio_9.avi", [Byte.x04])].*1 ->
     st_fs unit (snd (run_face_enhancement builtins_ex jobenv_timeout "/tmp/in.mp4" "/tmp/out.mp4"
                        "GFPGAN" (PBool true) (Fin (1#2)) st_input)) !! q = st_fs unit st_input !! q).
Proof.
  split; [eexists; reflexivity|]. split; [reflexivity|]. split; [reflexivity|].
  apply run_face_enhancement_timeout; [eexists; reflexivity|reflexivity|reflexivity].
Defined.

Lemma cleanup_temp_files_ok {Frame} (ro : string -> bool) (ps : list string) (s : St Frame) :
  exists s', cleanup_temp_files ro ps s = (Ok tt, s').
Proof.
  revert s. induction ps as [|p ps IH]; intros s; [eexists; reflexivity|].
  cbn [cleanup_temp_files]. unfold bind.
  destruct (cleanup_one_spec ro p s) as (s1 & -> & _). apply IH.
Qed.

(** *** Malformed jobs *)

Lemma py_float_state (B : Builtins) {Frame} (v : pyval) (s : St Frame) :
  snd (py_float B v s) = s.
Proof.
  destruct v as [|b|z|f|str|l|d]; cbn; try reflexivity.
  - destruct (FLOAT_INT_LIMIT <=? Z.abs z)%Z; reflexivity.
  - destruct (b_float_of_str B str); reflexivity.
Qed.

(** A job whose ["input"] is not a dict, or whose [enhancer_w] [float()]
    rejects (once a [video_url] is given), ends in the handler's
    [except]: the result is the error ["Lỗi server: ..."] with the
    exception's text, and nothing is created or removed.  [float()] is
    applied before the enhancer name is checked, so this holds whatever
    the enhancer is. *)
Theorem handler_server_error {Frame} (B : Builtins) (J : JobEnv) (job : pydict)
    (s : St Frame) (exc : exn) :
  ((forall d, dict_get job "input" (PDict []) <> PDict d) /\ exc = AttributeError) \/
  (exists d, dict_get job "input" (PDict []) = PDict d /\
     truthy (dict_get d "video_url" PNone) = true /\
     fst (py_float B (dict_get d "enhancer_w" (PFloat (Fin (1#2)))) (set_temps Frame [] s))
       = Raise exc) ->
  handler B J job s = (Ok (err ("Lỗi server: " ++ b_exc_str B exc)), set_temps Frame [] s).
Proof.
  intros H.
  assert (Hb : handler_body B J job (set_temps Frame [] s) = (Raise exc, set_temps Frame [] s)).
  { unfold handler_body. destruct H as [[Hn ->] | (d & Hd & Hv & Hp)].
    - destruct (dict_get job "input" (PDict [])) eqn:Hi; try reflexivity.
      exfalso. eapply Hn. reflexivity.
    - rewrite Hd, Hv. cbn [negb]. cbv beta iota zeta. unfold bind at 1. cbv beta.
      pose proof (py_float_state B (dict_get d "enhancer_w" (PFloat (Fin (1#2))))
                    (set_temps Frame [] s)) as Hs.
      destruct (py_float B _ _) as [r s1]. cbn in Hp, Hs. subst. reflexivity. }
  unfold handler, bind, modify, catch, get, ret. cbv beta iota. rewrite Hb. reflexivity.
Qed.

Lemma handler_server_error_witness :
  ((forall d, dict_get [("input", PStr "x")] "input" (PDict []) <> PDict d) /\
   AttributeError = AttributeError) /\
  handler builtins_ex jobenv_ex [("input", PStr "x")] st_empty =
    (Ok (err ("Lỗi server: " ++ b_exc_str builtins_ex AttributeError)),
     set_temps unit [] st_empty).
Proof.
  assert (H : (forall d, dict_get [("input", PStr "x")] "input" (PDict []) <> PDict d) /\
              AttributeError = AttributeError) by (split; [discriminate|reflexivity]).
  split; [exact H|]. apply handler_server_error. left. exact H.
Defined.

(** *** [main] stops before the frame loop when a model is missing *)

Lemma get_video_details_frame {Frame} (cap : string -> option (Capture Frame)) (p : string)
    (s : St Frame) :
  st_fs Frame (snd (get_video_details cap p s)) = st_fs Frame s /\
  st_written Frame (snd (get_video_details cap p s)) = st_written Frame s /\
  st_temps Frame (snd (get_video_details cap p s)) = st_temps Frame s.
Proof.
  unfold get_video_details, catch, bind, video_capture, release, modify, ret, throw. cbn.
  destruct (cap p) as [c|]; cbn; [destruct (_ || _ || _); cbn|]; repeat split.
Qed.

Lemma make_enhancer_state {Frame} (args : Args) (s : St Frame) :
  snd (make_enhancer args s) = s.
Proof.
  unfold make_enhancer, bind, path_exists, ret, throw.
  repeat (case_bool_decide; cbn; try reflexivity).
Qed.

Lemma make_enhancer_ok {Frame} (args : Args) (s s' : St Frame) (x : enhancer_id) :
  make_enhancer args s = (Ok x, s') ->
  a_enhancer args ∈ valid_enhancers /\
  (a_enhancer args = "GFPGAN" -> is_Some (st_fs Frame s !! gfpgan_model_path)).
Proof.
  destruct args as [f e ew gt fid outf]; cbn [a_enhancer].
  unfold make_enhancer, bind, path_exists, ret, throw, valid_enhancers. cbn [a_enhancer].
  repeat (case_bool_decide; [subst; cbn|]); cbn; try discriminate.
  all: intros _; split; [set_solver|]; solve [auto | discriminate].
Qed.

Lemma main_body_missing_model {Frame} (E : PipeEnv Frame) (args : Args) (s : St Frame) :
  a_enhancer args ∉ valid_enhancers \/
  (a_enhancer args = "GFPGAN" /\ st_fs Frame s !! gfpgan_model_path = None) \/
  (a_use_faceid args = true /\ st_fs Frame s !! faceid_model_path = None) ->
  exists e s1, main_body E args s = (Raise e, s1) /\
    st_fs Frame s1 = st_fs Frame s /\ st_written Frame s1 = st_written Frame s /\
    (st_temps Frame s1 = st_temps Frame s \/
     st_temps Frame s1 = (st_temps Frame s ++ [temp_video_file_of E])%list).
Proof.
  intros Hmiss.
  unfold main_body, bind, path_exists, makedirs, append_temp, modify, ret, throw.
  cbn -[get_video_details make_enhancer enhance_and_remux].
  case_bool_decide as Hf; cbn [negb]; cbv beta.
  2:{ eexists _, _. split; [reflexivity|]. auto. }
  match goal with |- context [?t s] =>
    lazymatch t with match a_outfile args with _ => _ end =>
      assert (Hout : exists r, t s = (r, s)) end end.
  { destruct (a_outfile args); [eexists; reflexivity|].
    destruct (pe_splitext _ _). destruct (pe_makedirs_ok E _); eexists; reflexivity. }
  destruct Hout as [r Hout]. rewrite Hout. destruct r as [o|e]; [|eexists _, _; split; [reflexivity|]; auto].
  destruct (pe_makedirs_ok E "/app/temp"); cbv beta iota; [|eexists _, _; split; [reflexivity|]; auto].
  match goal with |- context [get_video_details ?c ?p ?s0] =>
    pose proof (get_video_details_frame c p s0) as (Hg1 & Hg2 & Hg3);
    destruct (get_video_details c p s0) as [[d|e] s1] end;
    cbn [snd st_fs st_written st_temps set_temps] in Hg1, Hg2, Hg3.
  2:{ eexists _, _. split; [reflexivity|]. split; [exact Hg1|]. split; [exact Hg2|].
      right. exact Hg3. }
  destruct d as [[[fps w] h] fc]. cbv beta iota.
  pose proof (make_enhancer_state args s1) as Hs.
  destruct (make_enhancer args s1) as [[x|e] s2] eqn:Hm; cbn [snd] in Hs; subst s2.
  2:{ eexists _, _. split; [reflexivity|]. split; [exact Hg1|]. split; [exact Hg2|].
      right. exact Hg3. }
  apply make_enhancer_ok in Hm as [Hv Hg]. rewrite Hg1 in Hg.
  destruct Hmiss as [Hn | [[He Hn] | [Hu Hn]]]; [contradiction|
    destruct (Hg He) as [? Hy]; congruence|].
  rewrite Hu. cbv beta iota. rewrite Hg1, Hn. cbn.
  eexists _, _. split; [reflexivity|]. split; [exact Hg1|]. split; [exact Hg2|].
  right. exact Hg3.
Qed.

Lemma cleanup_temp_files_written {Frame} (ro : string -> bool) (ps : list string) (s : St Frame) :
  st_written Frame (snd (cleanup_temp_files ro ps s)) = st_written Frame s.
Proof.
  revert s. induction ps as [|p ps IH]; intros s; [reflexivity|].
  cbn [cleanup_temp_files]. unfold bind.
  assert (H1 : st_written Frame (snd (cleanup_one ro p s)) = st_written Frame s).
  { unfold cleanup_one, catch, bind, path_exists, os_remove, emit, modify, ret, throw.
    destruct (bool_decide _); [destruct (ro p)|]; reflexivity. }
  destruct (cleanup_one_spec ro p s) as (s1 & Hc & _). rewrite Hc in H1 |- *.
  rewrite IH. exact H1.
Qed.

(** [main] returns [False] without running the frame loop when the
    enhancer name is not one of the seven, the GFPGAN model file is
    missing for "GFPGAN", or the FaceID model file is missing with
    [--use_faceid]: no frame is written and no file changes, except that
    a file already at the silent video's temporary path is removed by the
    cleanup. *)
Theorem main_missing_model {Frame} (E : PipeEnv Frame) (args : Args) (s : St Frame) :
  a_enhancer args ∉ valid_enhancers \/
  (a_enhancer args = "GFPGAN" /\ st_fs Frame s !! gfpgan_model_path = None) \/
  (a_use_faceid args = true /\ st_fs Frame s !! faceid_model_path = None) ->
  exists s', main E args s = (Ok false, s') /\
    st_written Frame s' = st_written Frame s /\
    (forall q, q <> temp_video_file_of E -> st_fs Frame s' !! q = st_fs Frame s !! q).
Proof.
  intros Hmiss. unfold main, bind, modify, catch, get, ret. cbv beta iota.
  destruct (main_body_missing_model E args (set_temps Frame [] s) Hmiss)
    as (e & s1 & Hb & Hf & Hw & Ht).
  rewrite Hb. cbv beta iota.
  pose proof (cleanup_temp_files_written (pe_remove_ok E) (st_temps Frame s1) s1) as Hw2.
  assert (Hf2 : forall q, q <> temp_video_file_of E ->
            st_fs Frame (snd (cleanup_temp_files (pe_remove_ok E) (st_temps Frame s1) s1)) !! q
            = st_fs Frame s1 !! q).
  { intros q Hq. apply cleanup_temp_files_frame.
    destruct Ht as [-> | ->]; cbn; set_solver. }
  destruct (cleanup_temp_files_ok (pe_remove_ok E) (st_temps Frame s1) s1) as [s2 Hc].
  rewrite Hc in Hw2, Hf2 |- *. cbn [snd] in Hw2, Hf2.
  exists s2. split; [reflexivity|]. split; [rewrite Hw2, Hw; reflexivity|].
  intros q Hq. rewrite Hf2 by exact Hq. rewrite Hf. reflexivity.
Qed.

Definition args_unknown : Args := mkArgs "/in.mp4" "Foo" (1#2) "256" false None.

Lemma main_missing_model_witness :
  (a_enhancer args_unknown ∉ valid_enhancers \/
   (a_enhancer args_unknown = "GFPGAN" /\ st_fs nat st_pipe !! gfpgan_model_path = None) \/
   (a_use_faceid args_unknown = true /\ st_fs nat st_pipe !! faceid_model_path = None)) /\
  exists s', main pipe_ok args_unknown st_pipe = (Ok false, s') /\
    st_written nat s' = st_written nat st_pipe /\
    (forall q, q <> temp_video_file_of pipe_ok -> st_fs nat s' !! q = st_fs nat st_pipe !! q).
Proof.
  assert (H : a_enhancer args_unknown ∉ valid_enhancers).
  { apply (bool_decide_unpack _). vm_compute. reflexivity. }
  split; [left; exact H|]. apply main_missing_model. left. exact H.
Defined.

(** *** The ffmpeg call of [main] *)

(** Once the silent video exists and the output directory can be
    created, a raising ffmpeg (a timeout, a missing binary) is not covered
    by the copy fallback: [remux_stage] raises the same exception.  When
    ffmpeg exits with 0 the output holds what ffmpeg wrote (or what was
    already there), nothing else changes on disk, and the stage succeeds
    exactly when the output file then exists; otherwise it raises
    [FileNotFoundError]. *)
Theorem remux_stage_ffmpeg {Frame} (E : PipeEnv Frame) (face outfile tmp : string)
    (s : St Frame) :
  is_Some (st_fs Frame s !! tmp) ->
  pe_makedirs_ok E (pe_dirname E outfile) = true ->
  match pe_ffmpeg E (st_fs Frame s) (ffmpeg_cmd tmp face outfile) with
  | FfRaise e => fst (remux_stage E face outfile tmp s) = Raise e
  | FfExit Z0 w =>
      let fs' := match w with Some b => <[outfile := b]> (st_fs Frame s) | None => st_fs Frame s end in
      fst (remux_stage E face outfile tmp s) =
        (if bool_decide (is_Some (fs' !! outfile)) then Ok true else Raise FileNotFoundError) /\
      st_fs Frame (snd (remux_stage E face outfile tmp s)) = fs'
  | FfExit _ _ => True
  end.
Proof.
  intros Hi Hd.
  unfold remux_stage, bind, path_exists, makedirs, run_ffmpeg, emit, modify, get, ret, throw,
    write_file.
  rewrite bool_decide_true by exact Hi. cbn. rewrite Hd. cbn.
  destruct (pe_ffmpeg E (st_fs Frame s) _) as [e|rc w]; cbn; [reflexivity|].
  destruct rc; try exact I.
  destruct w; cbn; case_bool_decide; cbn; split; reflexivity.
Qed.

Lemma remux_stage_ffmpeg_witness :
  is_Some (st_fs nat st_pipe !! "/in.mp4") /\
  pe_makedirs_ok pipe_ok (pe_dirname pipe_ok "/out/o.mp4") = true /\
  match pe_ffmpeg pipe_ok (st_fs nat st_pipe) (ffmpeg_cmd "/in.mp4" "/in.mp4" "/out/o.mp4") with
  | FfRaise e => fst (remux_stage pipe_ok "/in.mp4" "/out/o.mp4" "/in.mp4" st_pipe) = Raise e
  | FfExit Z0 w =>
      let fs' := match w with
                 | Some b => <["/out/o.mp4" := b]> (st_fs nat st_pipe)
                 | None => st_fs nat st_pipe end in
      fst (remux_stage pipe_ok "/in.mp4" "/out/o.mp4" "/in.mp4" st_pipe) =
        (if bool_decide (is_Some (fs' !! "/out/o.mp4")) then Ok true else Raise FileNotFoundError) /\
      st_fs nat (snd (remux_stage pipe_ok "/in.mp4" "/out/o.mp4" "/in.mp4" st_pipe)) = fs'
  | FfExit _ _ => True
  end.
Proof.
  assert (Hi : is_Some (st_fs nat st_pipe !! "/in.mp4")) by (eexists; reflexivity).
  split; [exact Hi|]. split; [reflexivity|].
  apply remux_stage_ffmpeg; [exact Hi|reflexivity].
Defined.

(** *** The frame loop's error log *)




